(** * The "Codex Automated PR" workflow of examples/codex/jira-github.ipynb

    The notebook defines one GitHub Actions workflow: a [workflow_dispatch]
    trigger with three required inputs and a single job [codex_auto_pr] of
    nine steps.  This development embeds the workflow step by step: shell
    scripts become functions on the job state, external programs and
    services answer through a [World] record, and the runner's conventions
    (pasting of [${{ }}] expressions into the script, environment file,
    default [bash -e], skipping steps after a failure) are written out. *)

From Stdlib Require Import Ascii String Bool Arith Lia.
From stdpp Require Import base option list gmap strings.

(** ** Characters and text *)

Definition LF : ascii := "010"%char.
Definition DQUOTE : ascii := "034"%char.
Definition APOS : ascii := "039"%char.
Definition SPACE : ascii := " "%char.

Module Text.

Definition chars (s : string) : list ascii := String.list_ascii_of_string s.

Definition of_char (c : ascii) : string := String c "".

Fixpoint map (f : ascii → ascii) (s : string) : string :=
  match s with
  | "" => ""
  | String c s' => String (f c) (map f s')
  end.

Fixpoint count (c : ascii) (s : string) : nat :=
  match s with
  | "" => 0
  | String a s' => (if Ascii.eqb a c then 1 else 0) + count c s'
  end.

(** The lines of a text, as a reader that stops at the end of the text
    sees them: a final line break does not open one more line. *)
Fixpoint lines (s : string) : list string :=
  match s with
  | "" => []
  | String c s' =>
      if Ascii.eqb c LF then "" :: lines s'
      else match lines s' with
           | [] => [String c ""]
           | l :: ls => String c l :: ls
           end
  end.

Fixpoint is_prefix (p s : string) : bool :=
  match p, s with
  | "", _ => true
  | String a p', String b s' => Ascii.eqb a b && is_prefix p' s'
  | String _ _, "" => false
  end.

(** [occurs p s]: the text [p] appears somewhere inside [s]. *)
Fixpoint occurs (p s : string) : bool :=
  is_prefix p s ||
  match s with
  | "" => false
  | String _ s' => occurs p s'
  end.

Definition embeds (p s : string) : Prop :=
  ∃ pre suf, s = pre +:+ p +:+ suf.

(** Joining lines back with line breaks between them. *)
Fixpoint join (ls : list string) : string :=
  match ls with
  | [] => ""
  | [l] => l
  | l :: ls' => l +:+ String LF (join ls')
  end.

(** Removal of every line break at the end of a text. *)
Fixpoint strip_trailing_newlines (s : string) : string :=
  match s with
  | "" => ""
  | String c s' =>
      match strip_trailing_newlines s' with
      | "" => if Ascii.eqb c LF then "" else String c ""
      | t => String c t
      end
  end.

End Text.

(** A double-quoted word, for payloads that contain quotation marks. *)
Definition q (s : string) : string :=
  String DQUOTE s +:+ Text.of_char DQUOTE.

(** ** Shell utilities used by the scripts *)

(** [echo word], for a word that [echo] does not take as an option: the
    word followed by a line break. *)
Definition echo (word : string) : string := word +:+ Text.of_char LF.

(** bash's [echo] takes an argument made of [-] and one or more of the
    letters [n], [e] and [E] as options.  With such a word as its only
    argument it prints no text: a line break alone, and nothing at all
    when [n] is among the letters. *)
Definition is_echo_option (word : string) : bool :=
  match word with
  | String "-" (String c rest) =>
      forallb (λ a, Ascii.eqb a "n" || Ascii.eqb a "e" || Ascii.eqb a "E")
              (c :: Text.chars rest)
  | _ => false
  end.

Definition echo_builtin (word : string) : string :=
  if is_echo_option word
  then if existsb (Ascii.eqb "n") (Text.chars word)
       then "" else Text.of_char LF
  else echo word.

(** [tr '\n' ' '] *)
Definition tr_newline_space (stdin : string) : string :=
  Text.map (λ c, if Ascii.eqb c LF then SPACE else c) stdin.

(** [sed 's/"/'\''/g']: the shell glues the three quoted pieces into the
    program [s/"/'/g], which replaces every quotation mark. *)
Definition sed_quote_to_apostrophe (stdin : string) : string :=
  Text.map (λ c, if Ascii.eqb c DQUOTE then APOS else c) stdin.

(** [$( ... )]: the output of the pipeline without its final line breaks. *)
Definition command_substitution (stdout : string) : string :=
  Text.strip_trailing_newlines stdout.

(** ** Trigger inputs *)

Record Inputs := {
  issue_key : string;
  issue_summary : string;
  issue_description : string
}.

(** ** Inputs pasted into the script

    The runner replaces an expression [${{ github.event.inputs.x }}] by
    the text of the input before bash reads the script.  In step [vars]
    every expression stands between double quotes, after the opening
    quotation mark of a word and before its closing one; bash then reads
    the pasted text as part of the script:
    - between double quotes a character stands for itself, except the
      quotation mark, which ends the quoted part, the backslash, which
      takes the next character out of its meaning when that is a
      quotation mark, a dollar sign, a backquote or a backslash and
      joins two lines when it is a line break, and the dollar sign and
      the backquote, which start an expansion;
    - outside double quotes a quotation mark opens a quoted part again;
      letters, digits, [_], [-] and [.] stand for themselves, and the
      other characters have meanings of their own (blanks split words,
      [;], [&], [|] end commands, and so on).
    [pasted text] is what the pasted text adds to the word when bash
    reads it as text and nothing else: every character is of the kind
    that stands for itself and the text ends inside the quotes, so that
    the quotation mark after it closes the word.  For any other text
    there is no answer here: what bash does then is the world's part
    ([w_vars_script] below). *)

Definition shell_plain (c : ascii) : bool :=
  let n := Ascii.N_of_ascii c in
  ((48 <=? n) && (n <=? 57))%N || ((65 <=? n) && (n <=? 90))%N
  || ((97 <=? n) && (n <=? 122))%N
  || Ascii.eqb c "_" || Ascii.eqb c "-" || Ascii.eqb c ".".

Definition BACKSLASH : ascii := "092"%char.
Definition DOLLAR : ascii := "$"%char.
Definition BACKQUOTE : ascii := "`"%char.

Fixpoint pasted_from (quoted : bool) (text : string) : option string :=
  match text with
  | "" => if quoted then Some "" else None
  | String c rest =>
      if Ascii.eqb c DQUOTE then pasted_from (negb quoted) rest
      else if quoted then
        if Ascii.eqb c DOLLAR || Ascii.eqb c BACKQUOTE then None
        else if Ascii.eqb c BACKSLASH then
          match rest with
          | "" => None
          | String c' rest' =>
              if Ascii.eqb c' DQUOTE || Ascii.eqb c' DOLLAR
                 || Ascii.eqb c' BACKQUOTE || Ascii.eqb c' BACKSLASH
              then String c' <$> pasted_from true rest'
              else if Ascii.eqb c' LF then pasted_from true rest'
              else String c <$> (String c' <$> pasted_from true rest')
          end
        else String c <$> pasted_from true rest
      else
        if shell_plain c then String c <$> pasted_from false rest else None
  end.

Definition pasted (text : string) : option string := pasted_from true text.

(** The words that bash reads in the places of the three inputs, when it
    reads each pasted text as text. *)
Definition shell_words (i : Inputs) : option Inputs :=
  key ← pasted (issue_key i);
  title ← pasted (issue_summary i);
  description ← pasted (issue_description i);
  Some {| issue_key := key; issue_summary := title;
          issue_description := description |}.

(** ** Step [vars]: export and clean the inputs

    The definitions of this section take the words that bash read
    ([shell_words]), not the inputs: [echo "RAW_DESC=..."] prints its
    word and a line break (a word that starts with a name is no option
    of [echo]); [echo "..." | tr | sed] starts with the description as
    the only argument of [echo]. *)

Definition DESC_CLEANED (description : string) : string :=
  command_substitution
    (sed_quote_to_apostrophe (tr_newline_space (echo_builtin description))).

Definition BRANCH (i : Inputs) : string := "codex/" +:+ issue_key i.

(** The five [echo ... >> $GITHUB_ENV] of the script, in order. *)
Definition vars_echoes (i : Inputs) : list string :=
  [ echo ("ISSUE_KEY=" +:+ issue_key i);
    echo ("TITLE=" +:+ issue_summary i);
    echo ("RAW_DESC=" +:+ issue_description i);
    echo ("DESC=" +:+ DESC_CLEANED (issue_description i));
    echo ("BRANCH=" +:+ BRANCH i) ].

(** The content of the environment file when the script ends. *)
Definition vars_env_file (i : Inputs) : string :=
  foldr String.append "" (vars_echoes i).

(** ** The environment file

    After a step the runner reads the file named by [$GITHUB_ENV].  A line
    is [NAME=value], or [NAME<<DELIMITER] followed by the lines of the
    value and a line equal to the delimiter; empty lines are skipped and
    any other line makes the step fail. *)

Inductive EnvLine :=
| Assign (name value : string)
| Heredoc (name delimiter : string)
| Invalid.

(** Whichever of [=] and [<<] comes first decides the form of the line. *)
Fixpoint classify (l : string) : EnvLine :=
  match l with
  | "" => Invalid
  | String c rest =>
      if Ascii.eqb c "="%char then Assign "" rest
      else
        let continue :=
          match classify rest with
          | Assign n v => Assign (String c n) v
          | Heredoc n d => Heredoc (String c n) d
          | Invalid => Invalid
          end in
        match rest with
        | String c' rest' =>
            if Ascii.eqb c "<"%char && Ascii.eqb c' "<"%char
            then Heredoc "" rest' else continue
        | "" => continue
        end
  end.

Inductive EnvMode :=
| TopLevel
| InHeredoc (name delimiter : string) (seen : list string).

Fixpoint parse_env_lines (m : EnvMode) (ls : list string)
  : option (list (string * string)) :=
  match ls with
  | [] => match m with TopLevel => Some [] | InHeredoc _ _ _ => None end
  | l :: rest =>
      match m with
      | TopLevel =>
          if String.eqb l "" then parse_env_lines TopLevel rest
          else match classify l with
               | Assign n v =>
                   if String.eqb n "" then None
                   else cons (n, v) <$> parse_env_lines TopLevel rest
               | Heredoc n d =>
                   if String.eqb n "" || String.eqb d "" then None
                   else parse_env_lines (InHeredoc n d []) rest
               | Invalid => None
               end
      | InHeredoc n d seen =>
          if String.eqb l d
          then cons (n, Text.join (reverse seen)) <$> parse_env_lines TopLevel rest
          else parse_env_lines (InHeredoc n d (l :: seen)) rest
      end
  end.

Definition parse_env_file (content : string) : option (list (string * string)) :=
  parse_env_lines TopLevel (Text.lines content).

(** Later entries replace earlier ones of the same name. *)
Definition set_env (kvs : list (string * string)) (e : gmap string string)
  : gmap string string :=
  foldl (λ acc kv, <[kv.1 := kv.2]> acc) e kvs.

(** An unset variable, input or output reads as the empty text. *)
Definition getenv (e : gmap string string) (name : string) : string :=
  default "" (e !! name).

(** ** The outside world *)

(** [curl -sS] without [--fail]: the exit status is 0 whenever a response
    arrives, whatever its HTTP status, and the response body goes to the
    standard output; the status line is not printed.  Only a failure to
    get a response at all gives a non-zero exit status, with a message on
    the standard error. *)
Inductive CurlResult :=
| HttpResponse (status : nat) (body : string)
| TransportError (exit_status : positive) (message : string).

Definition curl_exit (r : CurlResult) : nat :=
  match r with
  | HttpResponse _ _ => 0
  | TransportError n _ => Pos.to_nat n
  end.

Definition curl_output (r : CurlResult) : string :=
  match r with
  | HttpResponse _ body => body
  | TransportError _ message => message
  end.

Definition is_2xx (r : CurlResult) : bool :=
  match r with
  | HttpResponse status _ => (200 <=? status) && (status <? 300)
  | TransportError _ _ => false
  end.

(** What one run of [codex] did: its exit status, and whether it left
    changes in the working copy that [git add -A] stages (a change to an
    ignored file is none). *)
Record CodexResult := {
  codex_exit : nat;
  codex_edits : bool
}.

(** What bash made of a script: its exit status and the text that the
    script appended to the environment file. *)
Record ShellResult := {
  shell_exit : nat;
  shell_written : string
}.

Record World := {
  secrets : gmap string string;
  w_checkout : bool;
  w_setup_node : bool;
  w_pnpm_add : nat;
  (** the script of step [vars], for inputs that bash does not read as
      text: the commands that such an input can start are seen through
      this result only *)
  w_vars_script : ShellResult;
  w_jira_in_progress : CurlResult;
  w_git_config_email : nat;
  w_git_config_name : nat;
  w_codex : CodexResult;
  w_git_add : nat;
  (** the exit status of [git commit] when there is something to commit *)
  w_git_commit : nat;
  (** the URL of the pull request when the action succeeds *)
  w_create_pull_request : option string;
  w_jira_in_review : CurlResult;
  w_jira_comment : CurlResult
}.

Definition secret (w : World) (name : string) : string :=
  getenv (secrets w) name.

(** ** The job state *)

Inductive Event :=
| Uses (action : string) (inputs : list (string * string))
| Exec (argv : list string).

Record Job := {
  env : gmap string string;
  (** [steps.<id>.outputs] *)
  steps : gmap string (gmap string string);
  (** external calls, oldest first *)
  trace : list Event;
  (** what the [curl] calls printed, in order; the output of the other
      programs is not kept *)
  log : list string;
  (** the working copy has changes that are not staged *)
  worktree_dirty : bool;
  (** the index has staged changes *)
  index_staged : bool
}.

Definition initial_job : Job :=
  {| env := ∅; steps := ∅; trace := []; log := [];
     worktree_dirty := false; index_staged := false |}.

Definition with_env (e : gmap string string) (j : Job) : Job :=
  {| env := e; steps := steps j; trace := trace j; log := log j;
     worktree_dirty := worktree_dirty j; index_staged := index_staged j |}.

Definition set_output (id name value : string)
    (outputs : gmap string (gmap string string))
  : gmap string (gmap string string) :=
  <[id := <[name := value]> (default ∅ (outputs !! id))]> outputs.

Definition with_output (id name value : string) (j : Job) : Job :=
  {| env := env j;
     steps := set_output id name value (steps j);
     trace := trace j; log := log j;
     worktree_dirty := worktree_dirty j; index_staged := index_staged j |}.

Definition record (e : Event) (out : list string) (j : Job) : Job :=
  {| env := env j; steps := steps j;
     trace := trace j ++ [e]; log := log j ++ out;
     worktree_dirty := worktree_dirty j; index_staged := index_staged j |}.

Definition with_tree (dirty staged : bool) (j : Job) : Job :=
  {| env := env j; steps := steps j; trace := trace j; log := log j;
     worktree_dirty := dirty; index_staged := staged |}.

(** ** Shell scripts

    A command maps the job state to an exit status and a new state.  The
    runner starts a [run:] script with [bash -e], and step 5 says [set -e]
    itself: the script stops at the first command whose status is not 0. *)

Definition Cmd : Type := Job → nat * Job.

Definition and_then (c1 c2 : Cmd) : Cmd :=
  λ j, let '(status, j1) := c1 j in
       if status =? 0 then c2 j1 else (status, j1).

Definition skip : Cmd := λ j, (0, j).

(** The commands of a script, one after the other. *)
Definition script (cs : list Cmd) : Cmd := foldr and_then skip cs.

Definition exec (argv : list string) (status : nat) (out : list string) : Cmd :=
  λ j, (status, record (Exec argv) out j).

Definition curl_post (url user data : string) (r : CurlResult) : Cmd :=
  exec [ "curl"; "-sS"; "-X"; "POST"; "--url"; url; "--user"; user;
         "--header"; "Content-Type: application/json"; "--data"; data ]
       (curl_exit r) [curl_output r].

(** [codex] edits the working copy. *)
Definition codex (prompt : string) (r : CodexResult) : Cmd :=
  λ j, let j1 := record (Exec [ "codex"; "--approval-mode"; "full-auto";
                                "--no-terminal"; "--quiet"; prompt ]) [] j in
       (codex_exit r,
        with_tree (worktree_dirty j1 || codex_edits r) (index_staged j1) j1).

(** [git add -A] stages every change of the working copy. *)
Definition git_add_all (status : nat) : Cmd :=
  λ j, let j1 := record (Exec ["git"; "add"; "-A"]) [] j in
       if status =? 0
       then (0, with_tree false (index_staged j1 || worktree_dirty j1) j1)
       else (status, j1).

(** [git commit -m msg] exits with status 1 when nothing is staged; with
    staged changes it can still fail (a hook, a missing identity), and
    the index is then left as it was. *)
Definition git_commit (msg : string) (status : nat) : Cmd :=
  λ j, let j1 := record (Exec ["git"; "commit"; "-m"; msg]) [] j in
       if index_staged j1
       then if status =? 0
            then (0, with_tree (worktree_dirty j1) false j1)
            else (status, j1)
       else (1, j1).

(** ** The steps of job [codex_auto_pr] *)

Inductive StepId :=
| Checkout          (* actions/checkout@v4 *)
| SetupNode         (* actions/setup-node@v4 *)
| InstallCodex      (* pnpm add -g @openai/codex *)
| Vars              (* id: vars *)
| JiraInProgress    (* Jira - Transition to In Progress *)
| GitAuthor         (* git config user.email / user.name *)
| CodexImplement    (* Codex implement & commit *)
| Cpr               (* id: cpr *)
| JiraInReview.     (* Jira - Transition to In Review & Comment PR link *)

Global Instance StepId_eq_dec : EqDecision StepId.
Proof. solve_decision. Defined.

(** A step reports success or failure. *)
Definition Step : Type := Job → bool * Job.

Definition run_script (c : Cmd) : Step :=
  λ j, let '(status, j') := c j in (status =? 0, j').

Definition uses (action : string) (inputs : list (string * string)) (ok : bool)
  : Step :=
  λ j, (ok, record (Uses action inputs) [] j).

Definition step_checkout (w : World) : Step :=
  uses "actions/checkout@v4" [("fetch-depth", "0")] (w_checkout w).

Definition step_setup_node (w : World) : Step :=
  uses "actions/setup-node@v4" [("node-version", "22")] (w_setup_node w).

Definition step_install_codex (w : World) : Step :=
  run_script (exec ["pnpm"; "add"; "-g"; "@openai/codex"] (w_pnpm_add w) []).

(** What the script appended to the environment file, when it ended with
    status 0. *)
Definition vars_written (w : World) (i : Inputs) : option string :=
  match shell_words i with
  | Some words => Some (vars_env_file words)
  | None =>
      if shell_exit (w_vars_script w) =? 0
      then Some (shell_written (w_vars_script w)) else None
  end.

(** The entries that the runner reads from the file. *)
Definition exported (w : World) (i : Inputs)
  : option (list (string * string)) :=
  vars_written w i ≫= parse_env_file.

(** The script only appends to the environment file; the runner then reads
    the file into the environment of the following steps, and fails the
    step when the file is not well formed. *)
Definition step_vars (w : World) (i : Inputs) : Step :=
  λ j, match exported w i with
       | Some kvs => (true, with_env (set_env kvs (env j)) j)
       | None => (false, j)
       end.

(** The [env:] block shared by the two Jira steps. *)
Definition jira_env (w : World) (e : gmap string string)
  : gmap string string :=
  <["JIRA_API_TOKEN" := secret w "JIRA_API_TOKEN"]>
    (<["JIRA_EMAIL" := secret w "JIRA_EMAIL"]>
       (<["JIRA_BASE_URL" := secret w "JIRA_BASE_URL"]>
          (<["ISSUE_KEY" := getenv e "ISSUE_KEY"]> e))).

(** ['{"transition":{"id":"21"}}'] and ['{"transition":{"id":"31"}}'] *)
Definition transition_data (id : string) : string :=
  "{" +:+ q "transition" +:+ ":{" +:+ q "id" +:+ ":" +:+ q id +:+ "}}".

Definition transitions_url (e : gmap string string) : string :=
  getenv e "JIRA_BASE_URL" +:+ "/rest/api/3/issue/" +:+ getenv e "ISSUE_KEY"
    +:+ "/transitions".

Definition comment_url (e : gmap string string) : string :=
  getenv e "JIRA_BASE_URL" +:+ "/rest/api/3/issue/" +:+ getenv e "ISSUE_KEY"
    +:+ "/comment".

Definition jira_user (e : gmap string string) : string :=
  getenv e "JIRA_EMAIL" +:+ ":" +:+ getenv e "JIRA_API_TOKEN".

Definition step_jira_in_progress (w : World) : Step :=
  λ j, let e := jira_env w (env j) in
       run_script
         (script [curl_post (transitions_url e) (jira_user e)
                    (transition_data "21") (w_jira_in_progress w)]) j.

Definition step_git_author (w : World) : Step :=
  run_script
    (script
       [ exec ["git"; "config"; "user.email";
               "github-actions[bot]@users.noreply.github.com"]
              (w_git_config_email w) [];
         exec ["git"; "config"; "user.name"; "github-actions[bot]"]
              (w_git_config_name w) [] ]).

Definition codex_prompt (e : gmap string string) : string :=
  "Implement JIRA ticket " +:+ getenv e "ISSUE_KEY" +:+ ": "
    +:+ getenv e "TITLE" +:+ ". " +:+ getenv e "DESC".

Definition commit_message (e : gmap string string) : string :=
  "feat(" +:+ getenv e "ISSUE_KEY" +:+ "): " +:+ getenv e "TITLE".

Definition step_codex_implement (w : World) : Step :=
  λ j, let e := <["CODEX_QUIET_MODE" := "1"]>
                  (<["OPENAI_API_KEY" := secret w "OPENAI_API_KEY"]> (env j)) in
       run_script
         (script [ codex (codex_prompt e) (w_codex w);
                   git_add_all (w_git_add w);
                   git_commit (commit_message e) (w_git_commit w) ]) j.

Definition pr_title (e : gmap string string) : string :=
  getenv e "TITLE" +:+ " (" +:+ getenv e "ISSUE_KEY" +:+ ")".

Definition pr_body (e : gmap string string) : string :=
  echo ("Auto-generated by Codex for JIRA **" +:+ getenv e "ISSUE_KEY" +:+ "**.")
    +:+ echo "---"
    +:+ echo (getenv e "DESC").

Definition cpr_inputs (w : World) (e : gmap string string)
  : list (string * string) :=
  [ ("token", secret w "GITHUB_TOKEN");
    ("base", "main");
    ("branch", getenv e "BRANCH");
    ("title", pr_title e);
    ("body", pr_body e) ].

Definition step_cpr (w : World) : Step :=
  λ j, let j1 := record (Uses "peter-evans/create-pull-request@v6"
                           (cpr_inputs w (env j))) [] j in
       match w_create_pull_request w with
       | Some pr_url => (true, with_output "cpr" "pull-request-url" pr_url j1)
       | None => (false, j1)
       end.

(** The comment payload: a rich-text document whose only text is
    [PR created: $PR_URL]. *)
Definition comment_data (pr_url : string) : string :=
  "{" +:+ q "body" +:+ ":{" +:+ q "type" +:+ ":" +:+ q "doc" +:+ ","
    +:+ q "version" +:+ ":1," +:+ q "content" +:+ ":[{" +:+ q "type" +:+ ":"
    +:+ q "paragraph" +:+ "," +:+ q "content" +:+ ":[{" +:+ q "type" +:+ ":"
    +:+ q "text" +:+ "," +:+ q "text" +:+ ":" +:+ q ("PR created: " +:+ pr_url)
    +:+ "}]}]}}".

Definition step_output (outputs : gmap string (gmap string string))
    (id name : string) : string :=
  getenv (default ∅ (outputs !! id)) name.

Definition step_jira_in_review (w : World) : Step :=
  λ j, let e := <["PR_URL" := step_output (steps j) "cpr" "pull-request-url"]>
                  (jira_env w (env j)) in
       run_script
         (script [ curl_post (transitions_url e) (jira_user e)
                     (transition_data "31") (w_jira_in_review w);
                   curl_post (comment_url e) (jira_user e)
                     (comment_data (getenv e "PR_URL")) (w_jira_comment w) ]) j.

Definition codex_auto_pr (w : World) (i : Inputs) : list (StepId * Step) :=
  [ (Checkout, step_checkout w);
    (SetupNode, step_setup_node w);
    (InstallCodex, step_install_codex w);
    (Vars, step_vars w i);
    (JiraInProgress, step_jira_in_progress w);
    (GitAuthor, step_git_author w);
    (CodexImplement, step_codex_implement w);
    (Cpr, step_cpr w);
    (JiraInReview, step_jira_in_review w) ].

(** ** Running the job

    No step has an [if:] condition, so a step runs only while every step
    before it succeeded; the job fails at the first step that fails. *)

Inductive Conclusion :=
| Success
| Failure (at_step : StepId).

Record Run := {
  conclusion : Conclusion;
  (** the steps that were started, in order *)
  executed : list StepId;
  final : Job
}.

(** The rest of the job ran after step [id] succeeded. *)
Definition after (id : StepId) (r : Run) : Run :=
  {| conclusion := conclusion r;
     executed := id :: executed r;
     final := final r |}.

Fixpoint run_steps (ss : list (StepId * Step)) (j : Job) : Run :=
  match ss with
  | [] => {| conclusion := Success; executed := []; final := j |}
  | (id, step) :: rest =>
      let '(ok, j') := step j in
      if ok then after id (run_steps rest j')
      else {| conclusion := Failure id; executed := [id]; final := j' |}
  end.

Definition run_job (w : World) (i : Inputs) : Run :=
  run_steps (codex_auto_pr w i) initial_job.

(** ** The trigger

    [on: workflow_dispatch] with the required inputs [issue_key],
    [issue_summary] and [issue_description].  The workflow has no
    [concurrency:] key: a dispatch that carries the inputs starts a run of
    its own, whatever runs are in progress; one that lacks an input is
    refused. *)

Inductive RunStatus :=
| in_progress
| completed (c : Conclusion).

Record WorkflowRun := {
  run_inputs : Inputs;
  run_status : RunStatus
}.

Definition workflow_dispatch (payload : gmap string string)
    (runs : list WorkflowRun) : option (list WorkflowRun) :=
  match payload !! "issue_key", payload !! "issue_summary",
        payload !! "issue_description" with
  | Some k, Some s, Some d =>
      Some (runs ++ [ {| run_inputs := {| issue_key := k; issue_summary := s;
                                          issue_description := d |};
                         run_status := in_progress |} ])
  | _, _, _ => None
  end.

Definition is_active (r : WorkflowRun) : bool :=
  match run_status r with in_progress => true | completed _ => false end.

Definition active_runs_for (key : string) (runs : list WorkflowRun)
  : list WorkflowRun :=
  filter (λ r, is_active r = true ∧ issue_key (run_inputs r) = key) runs.


(** A run in progress comes to its end with the conclusion of the job. *)
Definition complete (w : World) (r : WorkflowRun) : WorkflowRun :=
  {| run_inputs := run_inputs r;
     run_status := completed (conclusion (run_job w (run_inputs r))) |}.

(** ** Observing a run *)

Definition program (e : Event) : string :=
  match e with
  | Uses action _ => action
  | Exec (p :: _) => p
  | Exec [] => ""
  end.

(** The calls of one program or action in a trace, in order. *)
Fixpoint calls (p : string) (t : list Event) : list Event :=
  match t with
  | [] => []
  | e :: t' => if String.eqb (program e) p then e :: calls p t' else calls p t'
  end.

(** The last word of a command line: in the [curl] calls of this job, the
    [--data] payload. *)
Definition payload (e : Event) : string :=
  match e with
  | Exec argv => default "" (last argv)
  | Uses _ _ => ""
  end.

Definition create_pull_request : string := "peter-evans/create-pull-request@v6".

(** A text appears in a word of a command line or in an input of an
    action. *)
Definition mentions (text : string) (e : Event) : bool :=
  match e with
  | Exec argv => existsb (Text.occurs text) argv
  | Uses _ inputs => existsb (λ kv, Text.occurs text kv.2) inputs
  end.

(** Jira's side, as far as the workflow says it: transition 21 leads to
    In Progress and transition 31 to In Review, and a transition happens
    when the request is answered with a 2xx status. *)
Inductive TicketStatus := ToDo | InProgress | InReview.

Definition transition_target (id : string) : option TicketStatus :=
  if String.eqb id "21" then Some InProgress
  else if String.eqb id "31" then Some InReview
  else None.

Definition jira_after (response : CurlResult) (id : string)
    (before : TicketStatus) : TicketStatus :=
  if is_2xx response then default before (transition_target id) else before.

Definition ticket_after (w : World) (r : Run) (before : TicketStatus)
  : TicketStatus :=
  let s1 := if bool_decide (JiraInProgress ∈ executed r)
            then jira_after (w_jira_in_progress w) "21" before else before in
  if bool_decide (JiraInReview ∈ executed r)
  then jira_after (w_jira_in_review w) "31" s1 else s1.

(** Worlds that differ in the answer to one request. *)
Definition with_jira_in_progress (r : CurlResult) (w : World) : World :=
  {| secrets := secrets w; w_checkout := w_checkout w;
     w_setup_node := w_setup_node w; w_pnpm_add := w_pnpm_add w;
     w_vars_script := w_vars_script w;
     w_jira_in_progress := r;
     w_git_config_email := w_git_config_email w;
     w_git_config_name := w_git_config_name w;
     w_codex := w_codex w; w_git_add := w_git_add w;
     w_git_commit := w_git_commit w;
     w_create_pull_request := w_create_pull_request w;
     w_jira_in_review := w_jira_in_review w;
     w_jira_comment := w_jira_comment w |}.

Definition with_jira_in_review (r : CurlResult) (w : World) : World :=
  {| secrets := secrets w; w_checkout := w_checkout w;
     w_setup_node := w_setup_node w; w_pnpm_add := w_pnpm_add w;
     w_vars_script := w_vars_script w;
     w_jira_in_progress := w_jira_in_progress w;
     w_git_config_email := w_git_config_email w;
     w_git_config_name := w_git_config_name w;
     w_codex := w_codex w; w_git_add := w_git_add w;
     w_git_commit := w_git_commit w;
     w_create_pull_request := w_create_pull_request w;
     w_jira_in_review := r;
     w_jira_comment := w_jira_comment w |}.

Definition with_jira_comment (r : CurlResult) (w : World) : World :=
  {| secrets := secrets w; w_checkout := w_checkout w;
     w_setup_node := w_setup_node w; w_pnpm_add := w_pnpm_add w;
     w_vars_script := w_vars_script w;
     w_jira_in_progress := w_jira_in_progress w;
     w_git_config_email := w_git_config_email w;
     w_git_config_name := w_git_config_name w;
     w_codex := w_codex w; w_git_add := w_git_add w;
     w_git_commit := w_git_commit w;
     w_create_pull_request := w_create_pull_request w;
     w_jira_in_review := w_jira_in_review w;
     w_jira_comment := r |}.

Definition with_codex (r : CodexResult) (w : World) : World :=
  {| secrets := secrets w; w_checkout := w_checkout w;
     w_setup_node := w_setup_node w; w_pnpm_add := w_pnpm_add w;
     w_vars_script := w_vars_script w;
     w_jira_in_progress := w_jira_in_progress w;
     w_git_config_email := w_git_config_email w;
     w_git_config_name := w_git_config_name w;
     w_codex := r; w_git_add := w_git_add w;
     w_git_commit := w_git_commit w;
     w_create_pull_request := w_create_pull_request w;
     w_jira_in_review := w_jira_in_review w;
     w_jira_comment := w_jira_comment w |}.

Definition with_secrets (s : gmap string string) (w : World) : World :=
  {| secrets := s; w_checkout := w_checkout w;
     w_setup_node := w_setup_node w; w_pnpm_add := w_pnpm_add w;
     w_vars_script := w_vars_script w;
     w_jira_in_progress := w_jira_in_progress w;
     w_git_config_email := w_git_config_email w;
     w_git_config_name := w_git_config_name w;
     w_codex := w_codex w; w_git_add := w_git_add w;
     w_git_commit := w_git_commit w;
     w_create_pull_request := w_create_pull_request w;
     w_jira_in_review := w_jira_in_review w;
     w_jira_comment := w_jira_comment w |}.

(** ** A concrete setting

    The repository secrets are set, every tool works, Jira answers 204 to
    the transitions and 201 to the comment, and [codex] edits files. *)
Definition nominal_world : World :=
  {| secrets := {[ "JIRA_BASE_URL" := "https://example.atlassian.net";
                   "JIRA_EMAIL" := "bot@example.com";
                   "JIRA_API_TOKEN" := "jira-token";
                   "OPENAI_API_KEY" := "openai-key";
                   "GITHUB_TOKEN" := "github-token" ]};
     w_checkout := true; w_setup_node := true; w_pnpm_add := 0;
     w_vars_script := {| shell_exit := 2; shell_written := "" |};
     w_jira_in_progress := HttpResponse 204 "";
     w_git_config_email := 0; w_git_config_name := 0;
     w_codex := {| codex_exit := 0; codex_edits := true |};
     w_git_add := 0; w_git_commit := 0;
     w_create_pull_request := Some "https://github.com/acme/app/pull/7";
     w_jira_in_review := HttpResponse 204 "";
     w_jira_comment := HttpResponse 201 "{}" |}.

Definition ticket : Inputs :=
  {| issue_key := "PROJ-123";
     issue_summary := "Fix null check";
     issue_description := "Crashes on empty input, needs a guard" |}.

(** The description of the specification's first scenario: a quoted word
    and a line break. *)
Definition quoted_description : string :=
  "Crashes when input is " +:+ q "null" +:+ String LF "needs a guard".

(** A description whose second line has the form of an environment entry. *)
Definition two_line_ticket : Inputs :=
  {| issue_key := "PROJ-123";
     issue_summary := "Fix null check";
     issue_description := "Crashes on empty input" +:+ String LF "FOO=bar" |}.

(** ** Reading the description *)

(** What [tr] followed by [sed] does to one character. *)
Definition neutralize (c : ascii) : ascii :=
  if Ascii.eqb c LF then SPACE
  else if Ascii.eqb c DQUOTE then APOS
  else c.

Definition single_line (s : string) : Prop := LF ∉ Text.chars s.

Global Instance single_line_dec s : Decision (single_line s).
Proof. unfold single_line. apply _. Defined.

(** Inputs as the issue tracker's fields ordinarily are: each on one line. *)
Definition one_line_inputs (i : Inputs) : Prop :=
  single_line (issue_key i) ∧ single_line (issue_summary i)
  ∧ single_line (issue_description i).

(** The lines of a description after its first line. *)
Definition continuation (d : string) : list string :=
  tail (Text.lines (echo d)).

(** A description that does not disturb the variables written before it:
    read on their own, its lines after the first are environment entries,
    and none of them is named [ISSUE_KEY] or [TITLE]. *)
Definition undisturbing (d : string) : Prop :=
  ∃ extra, parse_env_lines TopLevel (continuation d) = Some extra
           ∧ ("ISSUE_KEY" ∉ extra.*1) ∧ ("TITLE" ∉ extra.*1).

Definition orderly_inputs (i : Inputs) : Prop :=
  single_line (issue_key i) ∧ single_line (issue_summary i)
  ∧ undisturbing (issue_description i).

(** A text without the characters that bash interprets between double
    quotes. *)
Definition shell_inert (s : string) : Prop :=
  Forall (λ c, c ∉ [DQUOTE; DOLLAR; BACKQUOTE; BACKSLASH]) (Text.chars s).

Global Instance shell_inert_dec s : Decision (shell_inert s).
Proof. unfold shell_inert. apply _. Defined.

Definition inert_inputs (i : Inputs) : Prop :=
  shell_inert (issue_key i) ∧ shell_inert (issue_summary i)
  ∧ shell_inert (issue_description i).

(** Words that make a well-formed environment file: a ticket id and a
    title of one line each, and a description whose further lines, read
    on their own, are complete entries. *)
Definition well_formed_inputs (i : Inputs) : Prop :=
  single_line (issue_key i) ∧ single_line (issue_summary i)
  ∧ is_Some (parse_env_lines TopLevel (continuation (issue_description i))).

Definition intended_variables : list string :=
  ["ISSUE_KEY"; "TITLE"; "RAW_DESC"; "DESC"; "BRANCH"].

(** ** The external calls of the job, by name *)

Definition failed_at (id : StepId) (j : Job) : Run :=
  {| conclusion := Failure id; executed := [id]; final := j |}.

Definition checkout_call : Event :=
  Uses "actions/checkout@v4" [("fetch-depth", "0")].

Definition setup_node_call : Event :=
  Uses "actions/setup-node@v4" [("node-version", "22")].

Definition pnpm_call : Event := Exec ["pnpm"; "add"; "-g"; "@openai/codex"].

Definition jira_call (url user data : string) : Event :=
  Exec [ "curl"; "-sS"; "-X"; "POST"; "--url"; url; "--user"; user;
         "--header"; "Content-Type: application/json"; "--data"; data ].

(** The transition request of a job whose environment is [e]. *)
Definition transition_call (w : World) (e : gmap string string) (id : string)
  : Event :=
  jira_call (transitions_url (jira_env w e)) (jira_user (jira_env w e))
    (transition_data id).

Definition comment_call (w : World) (e : gmap string string) (pr_url : string)
  : Event :=
  jira_call (comment_url (jira_env w e)) (jira_user (jira_env w e))
    (comment_data pr_url).

Definition git_config_email_call : Event :=
  Exec ["git"; "config"; "user.email";
        "github-actions[bot]@users.noreply.github.com"].

Definition git_config_name_call : Event :=
  Exec ["git"; "config"; "user.name"; "github-actions[bot]"].

Definition codex_call (prompt : string) : Event :=
  Exec ["codex"; "--approval-mode"; "full-auto"; "--no-terminal"; "--quiet";
        prompt].

Definition git_add_call : Event := Exec ["git"; "add"; "-A"].

Definition git_commit_call (msg : string) : Event :=
  Exec ["git"; "commit"; "-m"; msg].

Definition pull_request_call (w : World) (e : gmap string string) : Event :=
  Uses create_pull_request (cpr_inputs w e).

(** The job state after [codex] ran, and after [git add -A]. *)
Definition edited (w : World) (j : Job) : Job :=
  with_tree (worktree_dirty j || codex_edits (w_codex w)) (index_staged j)
    (record (codex_call (codex_prompt (env j))) [] j).

Definition staged (w : World) (j : Job) : Job :=
  with_tree false (index_staged (edited w j) || worktree_dirty (edited w j))
    (record git_add_call [] (edited w j)).

Definition trigger_payload : gmap string string :=
  {[ "issue_key" := "PROJ-123";
     "issue_summary" := "Fix null check";
     "issue_description" := "Crashes on empty input, needs a guard" ]}.

(** Jira refuses the first transition. *)
Definition refusing_world : World :=
  with_jira_in_progress (HttpResponse 401 "Unauthorized") nominal_world.

(** Jira cannot be reached for the first transition. *)
Definition unreachable_world : World :=
  with_jira_in_progress (TransportError 6 "curl: (6) Could not resolve host")
    nominal_world.

(** [codex] stops with an error, or ends without having changed a file. *)
Definition failing_codex_world : World :=
  with_codex {| codex_exit := 1; codex_edits := false |} nominal_world.

Definition idle_codex_world : World :=
  with_codex {| codex_exit := 0; codex_edits := false |} nominal_world.

(** Jira refuses, or cannot be reached for, the transition to In Review. *)
Definition review_refused_world : World :=
  with_jira_in_review (HttpResponse 400 "Bad Request") nominal_world.

Definition review_unreachable_world : World :=
  with_jira_in_review (TransportError 28 "curl: (28) Operation timed out")
    nominal_world.

Definition all_steps : list StepId :=
  [ Checkout; SetupNode; InstallCodex; Vars; JiraInProgress; GitAuthor;
    CodexImplement; Cpr; JiraInReview ].

(** Jira answers 500 to the In Progress transition. *)
Definition erring_world : World :=
  with_jira_in_progress (HttpResponse 500 "Internal Server Error") nominal_world.

(** A configuration that names other transition identifiers. *)
Definition reconfigured_world : World :=
  with_secrets
    (<["JIRA_TRANSITION_IN_PROGRESS" := "11"]>
       (<["JIRA_TRANSITION_IN_REVIEW" := "41"]> (secrets nominal_world)))
    nominal_world.

(** The same ticket with another title and another description. *)
Definition retitled_ticket : Inputs :=
  {| issue_key := "PROJ-123";
     issue_summary := "Guard the parser";
     issue_description := "Reject empty input early" |}.

(** A description whose second line has the form of the [TITLE] entry. *)
Definition retitling_ticket : Inputs :=
  {| issue_key := "PROJ-123";
     issue_summary := "Fix null check";
     issue_description := "Crashes on empty input" +:+ String LF "TITLE=Urgent" |}.

(** ** The calls of a run that goes through, from the inputs *)

Definition expected_trace (w : World) (i : Inputs) : list Event :=
  [ checkout_call; setup_node_call; pnpm_call;
    jira_call
      (secret w "JIRA_BASE_URL" +:+ "/rest/api/3/issue/" +:+ issue_key i
         +:+ "/transitions")
      (secret w "JIRA_EMAIL" +:+ ":" +:+ secret w "JIRA_API_TOKEN")
      (transition_data "21");
    git_config_email_call; git_config_name_call;
    codex_call
      ("Implement JIRA ticket " +:+ issue_key i +:+ ": " +:+ issue_summary i
         +:+ ". " +:+ DESC_CLEANED (issue_description i));
    git_add_call;
    git_commit_call ("feat(" +:+ issue_key i +:+ "): " +:+ issue_summary i);
    Uses create_pull_request
      [ ("token", secret w "GITHUB_TOKEN"); ("base", "main");
        ("branch", "codex/" +:+ issue_key i);
        ("title", issue_summary i +:+ " (" +:+ issue_key i +:+ ")");
        ("body",
         echo ("Auto-generated by Codex for JIRA **" +:+ issue_key i +:+ "**.")
           +:+ echo "---" +:+ echo (DESC_CLEANED (issue_description i))) ];
    jira_call
      (secret w "JIRA_BASE_URL" +:+ "/rest/api/3/issue/" +:+ issue_key i
         +:+ "/transitions")
      (secret w "JIRA_EMAIL" +:+ ":" +:+ secret w "JIRA_API_TOKEN")
      (transition_data "31");
    jira_call
      (secret w "JIRA_BASE_URL" +:+ "/rest/api/3/issue/" +:+ issue_key i
         +:+ "/comment")
      (secret w "JIRA_EMAIL" +:+ ":" +:+ secret w "JIRA_API_TOKEN")
      (comment_data (default "" (w_create_pull_request w))) ].

(** Inputs of one line each that hold the characters the environment file
    gives a meaning to. *)
Definition awkward_ticket : Inputs :=
  {| issue_key := "PROJ-123";
     issue_summary := "Retry when a=b<<c";
     issue_description := "x<<EOF and y=z" |}.

(** A description in prose on two lines. *)
Definition prose_ticket : Inputs :=
  {| issue_key := "PROJ-123";
     issue_summary := "Fix null check";
     issue_description := "Crashes on empty input" +:+ String LF "needs a guard" |}.

(** A description whose second line opens a multi-line value that ends at
    the line of the branch name. *)
Definition swallowing_ticket : Inputs :=
  {| issue_key := "PROJ-123";
     issue_summary := "Fix null check";
     issue_description :=
       "Crashes on empty input" +:+ String LF "NOTE<<BRANCH=codex/PROJ-123" |}.

(** A description with a quoted word and a line break, the second line
    being an entry of the environment file. *)
Definition quoted_ticket : Inputs :=
  {| issue_key := "PROJ-123";
     issue_summary := "Fix null check";
     issue_description :=
       "Crashes when input is " +:+ q "null" +:+ String LF "SEVERITY=high" |}.

(** The words that bash reads from [quoted_ticket]: the quotation marks
    are gone. *)
Definition quoted_words : Inputs :=
  {| issue_key := "PROJ-123";
     issue_summary := "Fix null check";
     issue_description :=
       "Crashes when input is null" +:+ String LF "SEVERITY=high" |}.

(** * Properties *)

(** ** Text *)

Section TextFacts.

Implicit Types (s t p : string) (c : ascii).

Lemma app_cons c s t : String c s +:+ t = String c (s +:+ t).
Proof. reflexivity. Qed.

Lemma app_empty_l t : "" +:+ t = t.
Proof. reflexivity. Qed.

Lemma app_empty_r s : s +:+ "" = s.
Proof. induction s as [|c s IH]; [done|]. by rewrite app_cons, IH. Qed.

Lemma app_assoc s t u : (s +:+ t) +:+ u = s +:+ (t +:+ u).
Proof. induction s as [|c s IH]; [done|]. by rewrite !app_cons, IH. Qed.

Lemma chars_cons c s : Text.chars (String c s) = c :: Text.chars s.
Proof. reflexivity. Qed.

Lemma chars_app s t : Text.chars (s +:+ t) = Text.chars s ++ Text.chars t.
Proof.
  induction s as [|c s IH]; [done|].
  by rewrite app_cons, !chars_cons, IH.
Qed.

Lemma chars_map f s : Text.chars (Text.map f s) = f <$> Text.chars s.
Proof.
  induction s as [|c s IH]; [done|].
  cbn [Text.map]. by rewrite !chars_cons, fmap_cons, IH.
Qed.

Lemma map_app f s t : Text.map f (s +:+ t) = Text.map f s +:+ Text.map f t.
Proof. induction s as [|c s IH]; [done|]. rewrite app_cons. simpl. by rewrite IH. Qed.

Lemma length_map f s : String.length (Text.map f s) = String.length s.
Proof. induction s as [|c s IH]; [done|]. simpl. by rewrite IH. Qed.

Lemma count_app c s t : Text.count c (s +:+ t) = Text.count c s + Text.count c t.
Proof.
  induction s as [|a s IH]; [done|]. rewrite app_cons. simpl. rewrite IH. lia.
Qed.

Lemma count_zero c s : c ∉ Text.chars s → Text.count c s = 0.
Proof.
  induction s as [|a s IH]; [done|]. rewrite chars_cons. intros Hn. simpl.
  destruct (Ascii.eqb_spec a c) as [->|_].
  - exfalso. apply Hn. left.
  - apply IH. intros ?. apply Hn. by right.
Qed.

(** A text without line break at its end is left alone by [$( )]. *)
Lemma strip_no_newline s :
  LF ∉ Text.chars s → Text.strip_trailing_newlines s = s.
Proof.
  induction s as [|c s IH]; [done|]. rewrite chars_cons. intros Hn. simpl.
  rewrite IH by (intros ?; apply Hn; by right).
  destruct s; [|done].
  destruct (Ascii.eqb_spec c LF) as [->|_]; [|done].
  exfalso. apply Hn. left.
Qed.

Lemma is_prefix_spec p s : Text.is_prefix p s = true ↔ ∃ suf, s = p +:+ suf.
Proof.
  revert s. induction p as [|a p IH]; intros s; simpl.
  - split; [intros _; by exists s | done].
  - destruct s as [|b s].
    + split; [done | intros [suf Hs]; discriminate Hs].
    + rewrite andb_true_iff, IH. split.
      * intros [Hab [suf ->]]. apply Ascii.eqb_eq in Hab as ->. by exists suf.
      * intros [suf Hs]. rewrite app_cons in Hs. injection Hs as -> ->.
        split; [apply Ascii.eqb_refl | by exists suf].
Qed.

Lemma occurs_spec p s : Text.occurs p s = true ↔ Text.embeds p s.
Proof.
  unfold Text.embeds. induction s as [|b s IH].
  - simpl. rewrite orb_false_r, is_prefix_spec. split.
    + intros [suf Hs]. by exists "", suf.
    + intros [pre [suf Hs]]. destruct pre; [by exists suf | discriminate Hs].
  - cbn [Text.occurs]. rewrite orb_true_iff, IH, is_prefix_spec. split.
    + intros [[suf Hs] | [pre [suf Hs]]].
      * by exists "", suf.
      * exists (String b pre), suf. by rewrite Hs.
    + intros [pre [suf Hs]]. destruct pre as [|a pre].
      * left. by exists suf.
      * right. rewrite app_cons in Hs. injection Hs as _ Hs. by exists pre, suf.
Qed.

Lemma lines_echo_nonempty s : Text.lines (echo s) ≠ [].
Proof.
  unfold echo. destruct s as [|c s]; [done|].
  rewrite app_cons. simpl.
  destruct (Ascii.eqb c LF); [done|]. by destruct (Text.lines _).
Qed.

(** What is appended after a complete line starts on a line of its own. *)
Lemma lines_echo_app s t :
  Text.lines (echo s +:+ t) = Text.lines (echo s) ++ Text.lines t.
Proof.
  induction s as [|c s IH]; [done|].
  unfold echo in *. rewrite !app_cons. simpl. rewrite IH.
  destruct (Ascii.eqb c LF); [done|].
  pose proof (lines_echo_nonempty s) as Hne. unfold echo in Hne.
  by destruct (Text.lines (s +:+ Text.of_char LF)).
Qed.

Lemma lines_echo_single s :
  LF ∉ Text.chars s → Text.lines (echo s) = [s].
Proof.
  unfold echo. induction s as [|c s IH]; [done|].
  rewrite chars_cons. intros Hn. rewrite app_cons. simpl.
  destruct (Ascii.eqb_spec c LF) as [->|_].
  - exfalso. apply Hn. left.
  - rewrite IH; [done|]. intros ?. apply Hn. by right.
Qed.

(** Every line break of the echoed word opens one more line. *)
Lemma lines_echo_length s :
  length (Text.lines (echo s)) = S (Text.count LF s).
Proof.
  unfold echo. induction s as [|c s IH]; [done|].
  rewrite app_cons. simpl.
  destruct (Ascii.eqb c LF); simpl.
  - by rewrite IH.
  - destruct (Text.lines (s +:+ Text.of_char LF)); simpl in *; lia.
Qed.

End TextFacts.

(** ** Sanitization of the description *)

Lemma map_map f g s : Text.map f (Text.map g s) = Text.map (λ c, f (g c)) s.
Proof. induction s as [|c s IH]; [done|]. simpl. by rewrite IH. Qed.

Lemma map_ext f g s : (∀ c, f c = g c) → Text.map f s = Text.map g s.
Proof. intros Hfg. induction s as [|c s IH]; [done|]. simpl. by rewrite Hfg, IH. Qed.

Lemma neutralize_not_newline c : neutralize c ≠ LF.
Proof.
  unfold neutralize.
  destruct (Ascii.eqb_spec c LF); [done|].
  destruct (Ascii.eqb_spec c DQUOTE); done.
Qed.

Lemma neutralize_not_quote c : neutralize c ≠ DQUOTE.
Proof.
  unfold neutralize.
  destruct (Ascii.eqb_spec c LF); [done|].
  destruct (Ascii.eqb_spec c DQUOTE); done.
Qed.

Lemma map_avoids f a s : (∀ c, f c ≠ a) → a ∉ Text.chars (Text.map f s).
Proof.
  intros Hf. rewrite chars_map. intros [c [Hc _]]%list_elem_of_fmap.
  by apply (Hf c).
Qed.

Lemma pipeline_neutralizes stdin :
  sed_quote_to_apostrophe (tr_newline_space stdin) = Text.map neutralize stdin.
Proof.
  unfold sed_quote_to_apostrophe, tr_newline_space. rewrite map_map.
  apply map_ext. intros c. unfold neutralize.
  by destruct (Ascii.eqb_spec c LF).
Qed.

(** The cleaned description, character by character, for a description
    that [echo] prints: the line break that [echo] adds becomes the space
    at the end. *)
Lemma DESC_CLEANED_chars d :
  is_echo_option d = false →
  DESC_CLEANED d = Text.map neutralize d +:+ " ".
Proof.
  intros Hd. unfold DESC_CLEANED, command_substitution, echo_builtin.
  rewrite Hd, pipeline_neutralizes.
  rewrite strip_no_newline by (apply map_avoids, neutralize_not_newline).
  unfold echo. by rewrite map_app.
Qed.

(** A description that [echo] takes as an option leaves nothing but the
    line break, if any. *)
Lemma DESC_CLEANED_option d :
  is_echo_option d = true →
  DESC_CLEANED d
  = if existsb (Ascii.eqb "n") (Text.chars d) then "" else " ".
Proof.
  intros Hd. unfold DESC_CLEANED, echo_builtin. rewrite Hd.
  by destruct (existsb _ _).
Qed.

Lemma DESC_CLEANED_no_newline d : LF ∉ Text.chars (DESC_CLEANED d).
Proof.
  destruct (is_echo_option d) eqn:Hd.
  - rewrite DESC_CLEANED_option by done.
    destruct (existsb _ _); by apply (bool_decide_unpack _).
  - rewrite DESC_CLEANED_chars, chars_app by done. intros [H|H]%elem_of_app.
    + by apply (map_avoids neutralize LF d neutralize_not_newline).
    + by apply list_elem_of_singleton in H.
Qed.

Lemma DESC_CLEANED_no_quote d : DQUOTE ∉ Text.chars (DESC_CLEANED d).
Proof.
  destruct (is_echo_option d) eqn:Hd.
  - rewrite DESC_CLEANED_option by done.
    destruct (existsb _ _); by apply (bool_decide_unpack _).
  - rewrite DESC_CLEANED_chars, chars_app by done. intros [H|H]%elem_of_app.
    + by apply (map_avoids neutralize DQUOTE d neutralize_not_quote).
    + by apply list_elem_of_singleton in H.
Qed.

(** ** The environment written by step [vars] *)

Lemma vars_env_file_unfold i :
  vars_env_file i =
    echo ("ISSUE_KEY=" +:+ issue_key i)
    +:+ echo ("TITLE=" +:+ issue_summary i)
    +:+ echo ("RAW_DESC=" +:+ issue_description i)
    +:+ echo ("DESC=" +:+ DESC_CLEANED (issue_description i))
    +:+ echo ("BRANCH=" +:+ BRANCH i).
Proof. unfold vars_env_file, vars_echoes. simpl. by rewrite app_empty_r. Qed.

Lemma single_line_prefixed p s :
  single_line p → single_line s → single_line (p +:+ s).
Proof.
  unfold single_line. rewrite chars_app. intros Hp Hs [H|H]%elem_of_app; tauto.
Qed.

(** Closes [single_line] goals on texts put together from literals, inputs
    and the cleaned description. *)
Ltac one_line :=
  repeat (apply single_line_prefixed);
  first [ assumption
        | apply DESC_CLEANED_no_newline
        | by apply (bool_decide_unpack _) ].

(** The lines of the environment file: the two lines before the raw
    description, the lines that the raw description spreads over, and the
    two lines after it. *)
Lemma vars_env_file_lines i :
  single_line (issue_key i) → single_line (issue_summary i) →
  Text.lines (vars_env_file i) =
    ["ISSUE_KEY=" +:+ issue_key i; "TITLE=" +:+ issue_summary i]
    ++ Text.lines (echo ("RAW_DESC=" +:+ issue_description i))
    ++ ["DESC=" +:+ DESC_CLEANED (issue_description i); "BRANCH=" +:+ BRANCH i].
Proof.
  intros Hk Ht. rewrite vars_env_file_unfold, !lines_echo_app.
  rewrite (lines_echo_single ("ISSUE_KEY=" +:+ _)) by one_line.
  rewrite (lines_echo_single ("TITLE=" +:+ _)) by one_line.
  rewrite (lines_echo_single ("DESC=" +:+ _)) by one_line.
  rewrite (lines_echo_single ("BRANCH=" +:+ _)) by (unfold BRANCH; one_line).
  done.
Qed.

Lemma vars_env_file_line_count i :
  single_line (issue_key i) → single_line (issue_summary i) →
  length (Text.lines (vars_env_file i))
  = 5 + Text.count LF (issue_description i).
Proof.
  intros Hk Ht. rewrite vars_env_file_lines by done.
  rewrite !length_app, lines_echo_length, count_app.
  change (Text.count LF "RAW_DESC=") with 0. simpl. lia.
Qed.

(** The first line of an echoed word takes the prefix of the word. *)
Lemma lines_echo_prefixed p d :
  single_line p →
  Text.lines (echo (p +:+ d))
  = (p +:+ hd "" (Text.lines (echo d))) :: tail (Text.lines (echo d)).
Proof.
  unfold single_line, echo. induction p as [|c p IH]; intros Hp.
  - rewrite app_empty_l. pose proof (lines_echo_nonempty d) as Hne.
    unfold echo in Hne. by destruct (Text.lines (d +:+ Text.of_char LF)).
  - rewrite chars_cons in Hp. rewrite !app_cons. cbn [Text.lines].
    destruct (Ascii.eqb_spec c LF) as [->|_].
    + exfalso. apply Hp. left.
    + rewrite IH by (intros ?; apply Hp; by right). reflexivity.
Qed.

(** Entries read up to the end of a complete part are followed by the
    entries of the rest. *)
Lemma parse_env_lines_app m ls1 ls2 kvs1 :
  parse_env_lines m ls1 = Some kvs1 →
  parse_env_lines m (ls1 ++ ls2)
  = (kvs1 ++.) <$> parse_env_lines TopLevel ls2.
Proof.
  revert m kvs1. induction ls1 as [|l ls1 IH]; intros m kvs1 H.
  - destruct m; [|discriminate H]. injection H as <-. simpl.
    by destruct (parse_env_lines TopLevel ls2).
  - simpl in *. destruct m as [|n d seen].
    + destruct (String.eqb l ""); [by apply IH|].
      destruct (classify l) as [n v|n d|]; [| |discriminate H].
      * destruct (String.eqb n ""); [discriminate H|].
        destruct (parse_env_lines TopLevel ls1) as [kvs|] eqn:Hrest;
          [|discriminate H].
        injection H as <-. rewrite (IH TopLevel kvs Hrest).
        by destruct (parse_env_lines TopLevel ls2).
      * destruct (String.eqb n "" || String.eqb d ""); [discriminate H|].
        by apply IH.
    + destruct (String.eqb l d); [|by apply IH].
      destruct (parse_env_lines TopLevel ls1) as [kvs|] eqn:Hrest;
        [|discriminate H].
      injection H as <-. rewrite (IH TopLevel kvs Hrest).
      by destruct (parse_env_lines TopLevel ls2).
Qed.

(** A description of one line has nothing after its first line. *)
Lemma single_line_undisturbing d : single_line d → undisturbing d.
Proof.
  intros Hd. exists []. unfold continuation.
  rewrite lines_echo_single by done. repeat split; by apply not_elem_of_nil.
Qed.

Lemma one_line_orderly i : one_line_inputs i → orderly_inputs i.
Proof.
  intros (Hk & Ht & Hd). repeat split; [done..|].
  by apply single_line_undisturbing.
Qed.

(** A line made of a literal name, [=] and a value is an entry. *)
Ltac read_entry name v :=
  match goal with
  | |- context [parse_env_lines TopLevel ((?p +:+ v) :: ?rest)] =>
      change (parse_env_lines TopLevel ((p +:+ v) :: rest))
        with (cons (name, v) <$> parse_env_lines TopLevel rest)
  end.

(** For orderly inputs the file holds the intended entries in their order,
    with the entries of the description's further lines after [RAW_DESC]. *)
Lemma vars_entries i :
  orderly_inputs i →
  ∃ extra,
    parse_env_file (vars_env_file i) =
      Some (("ISSUE_KEY", issue_key i)
            :: ("TITLE", issue_summary i)
            :: ("RAW_DESC", hd "" (Text.lines (echo (issue_description i))))
            :: extra
               ++ [ ("DESC", DESC_CLEANED (issue_description i));
                    ("BRANCH", BRANCH i) ])
    ∧ ("ISSUE_KEY" ∉ extra.*1) ∧ ("TITLE" ∉ extra.*1).
Proof.
  intros (Hk & Ht & extra & Hextra & Hkey & Htitle). exists extra.
  split; [|done]. unfold parse_env_file.
  rewrite vars_env_file_lines by done.
  rewrite (lines_echo_prefixed "RAW_DESC=") by one_line.
  fold (continuation (issue_description i)).
  generalize (hd "" (Text.lines (echo (issue_description i)))). intros first.
  cbn [app].
  read_entry "ISSUE_KEY" (issue_key i).
  read_entry "TITLE" (issue_summary i).
  read_entry "RAW_DESC" first.
  rewrite (parse_env_lines_app _ _ _ _ Hextra).
  reflexivity.
Qed.

(** What the reader of the file makes of it, given what it makes of the
    lines of the description after the first. *)
Lemma parse_vars_env_file i :
  single_line (issue_key i) → single_line (issue_summary i) →
  parse_env_file (vars_env_file i) =
    (λ extra,
       ("ISSUE_KEY", issue_key i)
       :: ("TITLE", issue_summary i)
       :: ("RAW_DESC", hd "" (Text.lines (echo (issue_description i))))
       :: extra)
    <$> parse_env_lines TopLevel
          (continuation (issue_description i)
             ++ [ "DESC=" +:+ DESC_CLEANED (issue_description i);
                  "BRANCH=" +:+ BRANCH i ]).
Proof.
  intros Hk Ht. unfold parse_env_file.
  rewrite vars_env_file_lines by done.
  rewrite (lines_echo_prefixed "RAW_DESC=") by one_line.
  fold (continuation (issue_description i)).
  generalize (hd "" (Text.lines (echo (issue_description i)))). intros first.
  cbn [app].
  read_entry "ISSUE_KEY" (issue_key i).
  read_entry "TITLE" (issue_summary i).
  read_entry "RAW_DESC" first.
  by destruct (parse_env_lines _ _).
Qed.

(** For well-formed inputs the file ends with the entries [DESC] and
    [BRANCH]. *)
Lemma well_formed_entries i :
  well_formed_inputs i →
  ∃ front,
    parse_env_file (vars_env_file i) =
      Some (front ++ [ ("DESC", DESC_CLEANED (issue_description i));
                       ("BRANCH", BRANCH i) ]).
Proof.
  intros (Hk & Ht & extra & Hextra).
  exists (("ISSUE_KEY", issue_key i) :: ("TITLE", issue_summary i)
          :: ("RAW_DESC", hd "" (Text.lines (echo (issue_description i))))
          :: extra).
  rewrite parse_vars_env_file by done.
  rewrite (parse_env_lines_app _ _ _ _ Hextra).
  read_entry "DESC" (DESC_CLEANED (issue_description i)).
  read_entry "BRANCH" (BRANCH i).
  reflexivity.
Qed.

(** A line without [=] and without [<] is no entry. *)
Lemma classify_invalid l :
  "="%char ∉ Text.chars l → "<"%char ∉ Text.chars l → classify l = Invalid.
Proof.
  induction l as [|c l IH]; [done|]. rewrite chars_cons.
  intros [Hc Hl]%not_elem_of_cons [Hc' Hl']%not_elem_of_cons.
  cbn [classify]. rewrite IH by done.
  destruct (Ascii.eqb_spec c "="%char) as [->|_]; [done|].
  destruct (Ascii.eqb_spec c "<"%char) as [->|_]; [done|].
  by destruct l.
Qed.

(** A line of a name without [=] and [<], followed by [<<] and a
    delimiter, opens a multi-line value. *)
Lemma classify_heredoc name d :
  "="%char ∉ Text.chars name → "<"%char ∉ Text.chars name →
  classify (name +:+ String "<" (String "<" d)) = Heredoc name d.
Proof.
  induction name as [|c name IH]; [done|]. rewrite chars_cons.
  intros [Hc Hl]%not_elem_of_cons [Hc' Hl']%not_elem_of_cons.
  rewrite app_cons. cbn [classify]. rewrite IH by done.
  destruct (Ascii.eqb_spec c "="%char) as [->|_]; [done|].
  destruct (Ascii.eqb_spec c "<"%char) as [->|_]; [done|].
  cbn [andb]. by destruct (name +:+ _).
Qed.

(** A text of two parts with a line break between them is echoed as the
    lines of the first part followed by the lines of the second. *)
Lemma lines_echo_break s t :
  Text.lines (echo (s +:+ String LF t))
  = Text.lines (echo s) ++ Text.lines (echo t).
Proof.
  rewrite <- lines_echo_app. f_equal. unfold echo.
  by rewrite !app_assoc.
Qed.

(** ** Runs *)

Global Arguments getenv : simpl never.
Global Arguments secret : simpl never.
Global Arguments jira_env : simpl never.
Global Arguments transitions_url : simpl never.
Global Arguments comment_url : simpl never.
Global Arguments jira_user : simpl never.
Global Arguments transition_data : simpl never.
Global Arguments comment_data : simpl never.
Global Arguments codex_prompt : simpl never.
Global Arguments commit_message : simpl never.
Global Arguments cpr_inputs : simpl never.
Global Arguments step_output : simpl never.
Global Arguments set_env : simpl never.
Global Arguments set_output : simpl never.
Global Arguments parse_env_file : simpl never.
Global Arguments vars_env_file : simpl never.
Global Arguments vars_written : simpl never.
Global Arguments exported : simpl never.
Global Arguments curl_exit : simpl never.
Global Arguments create_pull_request : simpl never.

Lemma curl_exit_response status body :
  (curl_exit (HttpResponse status body) =? 0) = true.
Proof. reflexivity. Qed.

Lemma curl_exit_transport code message :
  (curl_exit (TransportError code message) =? 0) = false.
Proof. apply Nat.eqb_neq. unfold curl_exit. lia. Qed.

(** *** One step of the job *)

Lemma run_steps_cons id step rest j ok j' :
  step j = (ok, j') →
  run_steps ((id, step) :: rest) j =
    if ok then after id (run_steps rest j') else failed_at id j'.
Proof. intros H. simpl. by rewrite H. Qed.

(** A script of one command succeeds when the command does. *)
Lemma run_script_one c j :
  run_script (script [c]) j = ((c j).1 =? 0, (c j).2).
Proof.
  unfold run_script, script. simpl. unfold and_then, skip.
  destruct (c j) as [status j1]. simpl.
  destruct (status =? 0) eqn:E; simpl; by rewrite ?E.
Qed.

Lemma run_script_two c1 c2 j :
  run_script (script [c1; c2]) j =
    if (c1 j).1 =? 0 then ((c2 (c1 j).2).1 =? 0, (c2 (c1 j).2).2)
    else (false, (c1 j).2).
Proof.
  unfold run_script, script. simpl. unfold and_then, skip.
  destruct (c1 j) as [s1 j1]. simpl.
  destruct (s1 =? 0) eqn:E1; simpl; [|by rewrite E1].
  destruct (c2 j1) as [s2 j2]. simpl.
  destruct (s2 =? 0) eqn:E2; simpl; by rewrite ?E2.
Qed.

Lemma run_script_three c1 c2 c3 j :
  run_script (script [c1; c2; c3]) j =
    if (c1 j).1 =? 0
    then if (c2 (c1 j).2).1 =? 0
         then ((c3 (c2 (c1 j).2).2).1 =? 0, (c3 (c2 (c1 j).2).2).2)
         else (false, (c2 (c1 j).2).2)
    else (false, (c1 j).2).
Proof.
  unfold run_script, script. simpl. unfold and_then, skip.
  destruct (c1 j) as [s1 j1]. simpl.
  destruct (s1 =? 0) eqn:E1; simpl; [|by rewrite E1].
  destruct (c2 j1) as [s2 j2]. simpl.
  destruct (s2 =? 0) eqn:E2; simpl; [|by rewrite E2].
  destruct (c3 j2) as [s3 j3]. simpl.
  destruct (s3 =? 0) eqn:E3; simpl; by rewrite ?E3.
Qed.

Lemma run_steps_next id step rest j :
  run_steps ((id, step) :: rest) j =
    if (step j).1 then after id (run_steps rest (step j).2)
    else failed_at id (step j).2.
Proof. simpl. by destruct (step j) as [[] j']. Qed.

(** *** Reading the environment *)

Lemma getenv_insert_eq (e : gmap string string) name v :
  getenv (<[name := v]> e) name = v.
Proof. unfold getenv. by rewrite lookup_insert_eq. Qed.

Lemma getenv_insert_ne (e : gmap string string) name name' v :
  name ≠ name' → getenv (<[name := v]> e) name' = getenv e name'.
Proof. intros Hne. unfold getenv. by rewrite lookup_insert_ne. Qed.

(** The Jira steps read the site and the credentials from the secrets and
    the ticket from the exported [ISSUE_KEY]. *)
Lemma transitions_url_jira_env w (e : gmap string string) :
  transitions_url (jira_env w e)
  = secret w "JIRA_BASE_URL" +:+ "/rest/api/3/issue/" +:+ getenv e "ISSUE_KEY"
      +:+ "/transitions".
Proof.
  unfold transitions_url, jira_env.
  by rewrite !(getenv_insert_ne _ "JIRA_API_TOKEN"),
    !(getenv_insert_ne _ "JIRA_EMAIL"), getenv_insert_eq,
    (getenv_insert_ne _ "JIRA_BASE_URL"), getenv_insert_eq.
Qed.

Lemma comment_url_jira_env w (e : gmap string string) :
  comment_url (jira_env w e)
  = secret w "JIRA_BASE_URL" +:+ "/rest/api/3/issue/" +:+ getenv e "ISSUE_KEY"
      +:+ "/comment".
Proof.
  unfold comment_url, jira_env.
  by rewrite !(getenv_insert_ne _ "JIRA_API_TOKEN"),
    !(getenv_insert_ne _ "JIRA_EMAIL"), getenv_insert_eq,
    (getenv_insert_ne _ "JIRA_BASE_URL"), getenv_insert_eq.
Qed.

Lemma jira_user_jira_env w (e : gmap string string) :
  jira_user (jira_env w e)
  = secret w "JIRA_EMAIL" +:+ ":" +:+ secret w "JIRA_API_TOKEN".
Proof.
  unfold jira_user, jira_env.
  by rewrite getenv_insert_eq, (getenv_insert_ne _ "JIRA_API_TOKEN"),
    getenv_insert_eq.
Qed.

(** [PR_URL] is not read by the URLs and the credentials. *)
Lemma transitions_url_pr_url (e : gmap string string) v :
  transitions_url (<["PR_URL" := v]> e) = transitions_url e.
Proof. unfold transitions_url. by rewrite !getenv_insert_ne. Qed.

Lemma comment_url_pr_url (e : gmap string string) v :
  comment_url (<["PR_URL" := v]> e) = comment_url e.
Proof. unfold comment_url. by rewrite !getenv_insert_ne. Qed.

Lemma jira_user_pr_url (e : gmap string string) v :
  jira_user (<["PR_URL" := v]> e) = jira_user e.
Proof. unfold jira_user. by rewrite !getenv_insert_ne. Qed.

(** The step's own [env:] entries leave the exported variables alone. *)
Lemma codex_prompt_step_env (e : gmap string string) a b :
  codex_prompt (<["CODEX_QUIET_MODE" := a]> (<["OPENAI_API_KEY" := b]> e))
  = codex_prompt e.
Proof. unfold codex_prompt. by rewrite !getenv_insert_ne. Qed.

Lemma commit_message_step_env (e : gmap string string) a b :
  commit_message (<["CODEX_QUIET_MODE" := a]> (<["OPENAI_API_KEY" := b]> e))
  = commit_message e.
Proof. unfold commit_message. by rewrite !getenv_insert_ne. Qed.

(** *** The steps, one equation each *)

Section Steps.

Variables (w : World) (i : Inputs) (j : Job).

Lemma step_checkout_eq :
  step_checkout w j = (w_checkout w, record checkout_call [] j).
Proof. reflexivity. Qed.

Lemma step_setup_node_eq :
  step_setup_node w j = (w_setup_node w, record setup_node_call [] j).
Proof. reflexivity. Qed.

Lemma step_install_codex_eq :
  step_install_codex w j = (w_pnpm_add w =? 0, record pnpm_call [] j).
Proof. reflexivity. Qed.

Lemma step_vars_eq :
  step_vars w i j =
    match exported w i with
    | Some kvs => (true, with_env (set_env kvs (env j)) j)
    | None => (false, j)
    end.
Proof. reflexivity. Qed.

Lemma step_jira_in_progress_eq :
  step_jira_in_progress w j =
    (curl_exit (w_jira_in_progress w) =? 0,
     record (transition_call w (env j) "21")
       [curl_output (w_jira_in_progress w)] j).
Proof. unfold step_jira_in_progress. by rewrite run_script_one. Qed.

Lemma step_git_author_eq :
  step_git_author w j =
    if w_git_config_email w =? 0
    then (w_git_config_name w =? 0,
          record git_config_name_call []
            (record git_config_email_call [] j))
    else (false, record git_config_email_call [] j).
Proof. unfold step_git_author. by rewrite run_script_two. Qed.

Lemma step_codex_implement_eq :
  step_codex_implement w j =
    if codex_exit (w_codex w) =? 0
    then if w_git_add w =? 0
         then if index_staged (staged w j)
              then if w_git_commit w =? 0
                   then (true,
                         with_tree false false
                           (record
                              (git_commit_call (commit_message (env j))) []
                              (staged w j)))
                   else (false,
                         record (git_commit_call (commit_message (env j))) []
                           (staged w j))
              else (false,
                    record (git_commit_call (commit_message (env j))) []
                      (staged w j))
         else (false, record git_add_call [] (edited w j))
    else (false, edited w j).
Proof.
  unfold step_codex_implement. rewrite run_script_three.
  rewrite codex_prompt_step_env, commit_message_step_env.
  unfold codex, git_add_all, git_commit, staged, edited. cbn [fst snd].
  destruct (codex_exit (w_codex w) =? 0); [|done].
  destruct (w_git_add w =? 0) eqn:Hadd; cbn [fst snd]; [|by rewrite Hadd].
  cbn.
  destruct (index_staged j || (worktree_dirty j || codex_edits (w_codex w)));
    [|done].
  destruct (w_git_commit w =? 0) eqn:Hcommit; cbn [fst snd];
    [done | by rewrite Hcommit].
Qed.

Lemma step_cpr_eq :
  step_cpr w j =
    match w_create_pull_request w with
    | Some pr_url =>
        (true,
         with_output "cpr" "pull-request-url" pr_url
           (record (pull_request_call w (env j)) [] j))
    | None => (false, record (pull_request_call w (env j)) [] j)
    end.
Proof. reflexivity. Qed.

Lemma step_jira_in_review_eq :
  step_jira_in_review w j =
    let pr_url := step_output (steps j) "cpr" "pull-request-url" in
    let j1 := record (transition_call w (env j) "31")
                [curl_output (w_jira_in_review w)] j in
    if curl_exit (w_jira_in_review w) =? 0
    then (curl_exit (w_jira_comment w) =? 0,
          record (comment_call w (env j) pr_url)
            [curl_output (w_jira_comment w)] j1)
    else (false, j1).
Proof.
  unfold step_jira_in_review. rewrite run_script_two.
  rewrite getenv_insert_eq, transitions_url_pr_url, comment_url_pr_url,
    jira_user_pr_url.
  reflexivity.
Qed.

End Steps.

(** *** Every way the job can go *)

Ltac next_step eq := rewrite run_steps_next, eq; cbn [fst snd].

Ltac on_flag b := destruct b eqn:?; cbn [fst snd].

Ltac on_status n :=
  let E := fresh "E" in
  destruct (Nat.eqb_spec n 0) as [E|E]; cbn [fst snd].

Ltac on_curl r :=
  destruct r as [?status ?body | ?code ?message] eqn:?;
  rewrite ?curl_exit_response, ?curl_exit_transport; cbn [fst snd].

Ltac on_parse :=
  lazymatch goal with
  | |- context [exported ?w ?i] =>
      destruct (exported w i) as [?kvs|] eqn:?; cbn [fst snd]
  end.

Ltac settle :=
  cbn [after failed_at run_steps conclusion executed final].

(** One goal for every way the job can go: the step that fails, or none. *)
Ltac walk w :=
  unfold run_job, codex_auto_pr;
  next_step step_checkout_eq; on_flag (w_checkout w);
  [ next_step step_setup_node_eq; on_flag (w_setup_node w);
    [ next_step step_install_codex_eq; on_status (w_pnpm_add w);
      [ next_step step_vars_eq; on_parse;
        [ next_step step_jira_in_progress_eq; on_curl (w_jira_in_progress w);
          [ next_step step_git_author_eq; on_status (w_git_config_email w);
            [ on_status (w_git_config_name w);
              [ next_step step_codex_implement_eq;
                on_status (codex_exit (w_codex w));
                [ on_status (w_git_add w);
                  [ cbn [staged edited index_staged worktree_dirty record
                           with_tree with_env initial_job orb];
                    on_flag (codex_edits (w_codex w));
                    [ on_status (w_git_commit w);
                      [ next_step step_cpr_eq;
                        destruct (w_create_pull_request w) as [?pr_url|] eqn:?;
                        cbn [fst snd];
                        [ next_step step_jira_in_review_eq; cbv zeta;
                          on_curl (w_jira_in_review w);
                          [ on_curl (w_jira_comment w) | ]
                        | ]
                      | ]
                    | ]
                  | ]
                | ]
              | ]
            | ]
          | ]
        | ]
      | ]
    | ]
  | ];
  settle.

(** A membership in a list of steps that is known and does not hold. *)
Ltac not_started :=
  match goal with
  | H : _ ∈ _ |- _ => exfalso; revert H; by apply (bool_decide_unpack _)
  end.


(** The trace, the log and the outputs of a job state that is written out. *)
Ltac observe :=
  cbn [trace log steps env record with_env with_output with_tree
       staged edited initial_job app].

(** What the case analysis found out about the world. *)
Ltac recall :=
  repeat match goal with
         | H : ?f _ = _ |- context [?f _] => rewrite H
         end.

(** A membership in a list of steps that is known and holds. *)
Ltac started := by apply (bool_decide_unpack _).

(** *** The words of the inputs *)

(** When bash reads the pasted inputs as text, the entries of the
    environment file are those of the five lines written with the words. *)
Lemma exported_words w i ws :
  shell_words i = Some ws →
  exported w i = parse_env_file (vars_env_file ws).
Proof. intros H. unfold exported, vars_written. by rewrite H. Qed.

(** *** The environment after the file is read *)

Lemma set_env_app kvs1 kvs2 (e : gmap string string) :
  set_env (kvs1 ++ kvs2) e = set_env kvs2 (set_env kvs1 e).
Proof. unfold set_env. apply foldl_app. Qed.

Lemma getenv_set_env_other kvs (e : gmap string string) name :
  name ∉ kvs.*1 → getenv (set_env kvs e) name = getenv e name.
Proof.
  revert e. induction kvs as [|[n v] kvs IH]; intros e Hn; [done|].
  cbn [fmap list_fmap fst] in Hn. apply not_elem_of_cons in Hn as [Hne Hn].
  unfold set_env in *. cbn [foldl fst snd].
  rewrite IH by done. by apply getenv_insert_ne.
Qed.

(** The variables after the file is read: [DESC] and [BRANCH] are written
    last, and [ISSUE_KEY] and [TITLE] are not written again. *)
Lemma exported_variables k t r extra c b :
  "ISSUE_KEY" ∉ extra.*1 → "TITLE" ∉ extra.*1 →
  let e := set_env (("ISSUE_KEY", k) :: ("TITLE", t) :: ("RAW_DESC", r)
                    :: extra ++ [ ("DESC", c); ("BRANCH", b) ]) ∅ in
  getenv e "ISSUE_KEY" = k ∧ getenv e "TITLE" = t
  ∧ getenv e "DESC" = c ∧ getenv e "BRANCH" = b.
Proof.
  intros Hkey Htitle e. subst e.
  change (("ISSUE_KEY", k) :: ("TITLE", t) :: ("RAW_DESC", r)
          :: extra ++ [("DESC", c); ("BRANCH", b)])
    with ([("ISSUE_KEY", k); ("TITLE", t); ("RAW_DESC", r)]
          ++ extra ++ [("DESC", c); ("BRANCH", b)]).
  rewrite !set_env_app.
  set (e0 := set_env [("ISSUE_KEY", k); ("TITLE", t); ("RAW_DESC", r)] ∅).
  change (set_env [("DESC", c); ("BRANCH", b)] (set_env extra e0))
    with (<["BRANCH" := b]> (<["DESC" := c]> (set_env extra e0))).
  assert (getenv e0 "ISSUE_KEY" = k ∧ getenv e0 "TITLE" = t) as [Hk Ht].
  { subst e0. unfold set_env. cbn [foldl fst snd].
    split; [rewrite !getenv_insert_ne by done|rewrite getenv_insert_ne by done];
      apply getenv_insert_eq. }
  split; [|split; [|split]].
  - by rewrite !getenv_insert_ne, getenv_set_env_other.
  - by rewrite !getenv_insert_ne, getenv_set_env_other.
  - rewrite getenv_insert_ne by done. apply getenv_insert_eq.
  - apply getenv_insert_eq.
Qed.

(** [DESC] and [BRANCH] are the last two entries: whatever comes before
    them, they hold what the script wrote for them. *)
Lemma last_entries front c b (e0 : gmap string string) :
  let e := set_env (front ++ [("DESC", c); ("BRANCH", b)]) e0 in
  e !! "DESC" = Some c ∧ e !! "BRANCH" = Some b
  ∧ getenv e "DESC" = c ∧ getenv e "BRANCH" = b.
Proof.
  intros e. subst e. rewrite set_env_app.
  change (set_env [("DESC", c); ("BRANCH", b)] (set_env front e0))
    with (<["BRANCH" := b]> (<["DESC" := c]> (set_env front e0))).
  split; [by rewrite lookup_insert_ne, lookup_insert_eq|].
  split; [by rewrite lookup_insert_eq|].
  split; [by rewrite getenv_insert_ne, getenv_insert_eq|].
  by rewrite getenv_insert_eq.
Qed.

Lemma step_output_set_output id name v outputs :
  step_output (set_output id name v outputs) id name = v.
Proof.
  unfold step_output, set_output. rewrite lookup_insert_eq. cbn [default].
  apply getenv_insert_eq.
Qed.

(** The calls of one program in a trace that is written out. *)
Ltac select_calls :=
  unfold create_pull_request;
  cbn [calls fmap list_fmap payload program String.eqb Ascii.eqb
       Bool.eqb checkout_call setup_node_call pnpm_call transition_call
       comment_call jira_call git_config_email_call git_config_name_call
       codex_call git_add_call git_commit_call pull_request_call
       last default length].

(** The entries that the case analysis met are those of the file. *)
Ltac entries H :=
  try discriminate H; try (injection H as ->).

(** ** The nominal run and three failures *)

Example nominal_run :
  conclusion (run_job nominal_world ticket) = Success
  ∧ executed (run_job nominal_world ticket) = all_steps
  ∧ trace (final (run_job nominal_world ticket))
    = [ checkout_call; setup_node_call; pnpm_call;
        jira_call
          "https://example.atlassian.net/rest/api/3/issue/PROJ-123/transitions"
          "bot@example.com:jira-token" (transition_data "21");
        git_config_email_call; git_config_name_call;
        codex_call
          "Implement JIRA ticket PROJ-123: Fix null check. Crashes on empty input, needs a guard ";
        git_add_call;
        git_commit_call "feat(PROJ-123): Fix null check";
        Uses create_pull_request
          [ ("token", "github-token"); ("base", "main");
            ("branch", "codex/PROJ-123");
            ("title", "Fix null check (PROJ-123)");
            ("body",
             echo "Auto-generated by Codex for JIRA **PROJ-123**."
               +:+ echo "---"
               +:+ echo "Crashes on empty input, needs a guard ") ];
        jira_call
          "https://example.atlassian.net/rest/api/3/issue/PROJ-123/transitions"
          "bot@example.com:jira-token" (transition_data "31");
        jira_call
          "https://example.atlassian.net/rest/api/3/issue/PROJ-123/comment"
          "bot@example.com:jira-token"
          (comment_data "https://github.com/acme/app/pull/7") ]
  ∧ ticket_after nominal_world (run_job nominal_world ticket) ToDo = InReview.
Proof. by vm_compute. Qed.

Example codex_error_run :
  conclusion (run_job failing_codex_world ticket) = Failure CodexImplement
  ∧ executed (run_job failing_codex_world ticket)
    = [ Checkout; SetupNode; InstallCodex; Vars; JiraInProgress; GitAuthor;
        CodexImplement ]
  ∧ ticket_after failing_codex_world (run_job failing_codex_world ticket) ToDo
    = InProgress.
Proof. by vm_compute. Qed.

Example review_refused_run :
  conclusion (run_job review_refused_world ticket) = Success
  ∧ executed (run_job review_refused_world ticket) = all_steps
  ∧ ticket_after review_refused_world (run_job review_refused_world ticket) ToDo
    = InProgress.
Proof. by vm_compute. Qed.

(** The description of the first scenario has a second line that is no
    environment entry: the runner refuses the file and step [vars] fails. *)
Example quoted_description_run :
  conclusion
    (run_job nominal_world
       {| issue_key := "PROJ-123"; issue_summary := "Fix null check";
          issue_description := quoted_description |})
  = Failure Vars.
Proof. by vm_compute. Qed.

(** A run that came to its end is in progress no more. *)
Lemma complete_not_active w r : is_active (complete w r) = false.
Proof. reflexivity. Qed.

(** ** Properties of the workflow *)

(** *** Trigger and concurrency *)

Lemma active_runs_for_app key runs r :
  is_active r = true → issue_key (run_inputs r) = key →
  length (active_runs_for key (runs ++ [r]))
  = S (length (active_runs_for key runs)).
Proof.
  intros Ha Hk. unfold active_runs_for.
  rewrite filter_app, length_app, filter_cons_True by done.
  simpl. lia.
Qed.




(** *** The transition to In Progress *)

(** C2 (as the workflow has it): when [curl] gets no response for the
    In Progress transition (non-zero exit status), the run fails at that
    step, no further step is started and [codex] is never called.  When
    Jira answers, whatever the HTTP status, the step succeeds and the job
    goes on with the next step. *)
Theorem C2_transport_failure_stops_the_job (w : World) (i : Inputs) :
  JiraInProgress ∈ executed (run_job w i) →
  match w_jira_in_progress w with
  | TransportError _ _ =>
      conclusion (run_job w i) = Failure JiraInProgress
      ∧ executed (run_job w i)
        = [Checkout; SetupNode; InstallCodex; Vars; JiraInProgress]
      ∧ calls "codex" (trace (final (run_job w i))) = []
  | HttpResponse _ _ =>
      conclusion (run_job w i) ≠ Failure JiraInProgress
      ∧ GitAuthor ∈ executed (run_job w i)
  end.
Proof.
  walk w; intros Hin; try not_started; observe.
  all: first [ done | by split; [|started] ].
Qed.

Lemma C2_transport_failure_stops_the_job_witness :
  conclusion (run_job unreachable_world ticket) = Failure JiraInProgress
  ∧ executed (run_job unreachable_world ticket)
    = [Checkout; SetupNode; InstallCodex; Vars; JiraInProgress]
  ∧ calls "codex" (trace (final (run_job unreachable_world ticket))) = [].
Proof.
  apply (C2_transport_failure_stops_the_job unreachable_world ticket).
  started.
Defined.

(** C2, as stated, fails: Jira answers 401 to the In Progress transition,
    so the transition did not happen, yet the run goes on, [codex] is
    called and the run ends in success. *)
Lemma C2_agent_runs_after_refused_transition :
  JiraInProgress ∈ executed (run_job refusing_world ticket)
  ∧ is_2xx (w_jira_in_progress refusing_world) = false
  ∧ conclusion (run_job refusing_world ticket) = Success
  ∧ calls "codex" (trace (final (run_job refusing_world ticket)))
    = [codex_call
         "Implement JIRA ticket PROJ-123: Fix null check. Crashes on empty input, needs a guard "].
Proof. split; [started | by vm_compute]. Qed.

(** *** Embedded texts *)

Lemma embeds_refl p : Text.embeds p p.
Proof. exists "", "". by rewrite app_empty_r. Qed.

Lemma embeds_app_l p a s : Text.embeds p s → Text.embeds p (a +:+ s).
Proof.
  intros (pre & suf & ->). exists (a +:+ pre), suf. by rewrite app_assoc.
Qed.

Lemma embeds_app_r p s a : Text.embeds p s → Text.embeds p (s +:+ a).
Proof.
  intros (pre & suf & ->). exists pre, (suf +:+ a). by rewrite !app_assoc.
Qed.

Lemma embeds_echo p s : Text.embeds p s → Text.embeds p (echo s).
Proof. apply embeds_app_r. Qed.

Lemma embeds_cons p c s : Text.embeds p s → Text.embeds p (String c s).
Proof. intros (pre & suf & ->). by exists (String c pre), suf. Qed.

Create HintDb embeds.
#[local] Hint Resolve embeds_refl embeds_app_l embeds_app_r embeds_echo : embeds.

Lemma pr_body_embeds_DESC (e : gmap string string) :
  Text.embeds (getenv e "DESC") (pr_body e).
Proof. unfold pr_body. auto 6 with embeds. Qed.

Lemma codex_prompt_embeds_DESC (e : gmap string string) :
  Text.embeds (getenv e "DESC") (codex_prompt e).
Proof. unfold codex_prompt. auto 8 with embeds. Qed.

(** *** Failure of the agent *)

Ltac ticket_status :=
  unfold ticket_after;
  repeat first
    [ rewrite bool_decide_true by started
    | rewrite bool_decide_false by (by apply (bool_decide_unpack _)) ].



(** *** Partial success *)

(** The comment sent to Jira carries the URL. *)
Lemma comment_data_embeds_url pr_url :
  Text.embeds ("PR created: " +:+ pr_url) (comment_data pr_url).
Proof.
  unfold comment_data.
  do 23 apply embeds_app_l. apply embeds_app_r.
  unfold q. apply embeds_cons, embeds_app_r, embeds_refl.
Qed.




(** *** HTTP status of the answers *)

Lemma run_steps_ext (ss ss' : list (StepId * Step)) (j : Job) :
  Forall2 (λ a b, a.1 = b.1 ∧ ∀ j, a.2 j = b.2 j) ss ss' →
  run_steps ss j = run_steps ss' j.
Proof.
  intros H. revert j.
  induction H as [|[id s] [id' s'] ss ss' [Hid Hs] _ IH]; intros j; [done|].
  simpl in *. subst id'. rewrite Hs.
  destruct (s' j) as [[] j']; [by rewrite IH | done].
Qed.

(** Steps given by the same equations make the same job. *)
Ltac same_steps :=
  unfold run_job, codex_auto_pr; apply run_steps_ext;
  repeat (constructor; [split; [reflexivity | intros ?] | ]);
  [ .. | constructor ].

Lemma in_progress_status_ignored w i body status status' :
  run_job (with_jira_in_progress (HttpResponse status body) w) i
  = run_job (with_jira_in_progress (HttpResponse status' body) w) i.
Proof.
  same_steps; cbn [snd]; reflexivity.
Qed.

Lemma in_review_status_ignored w i body status status' :
  run_job (with_jira_in_review (HttpResponse status body) w) i
  = run_job (with_jira_in_review (HttpResponse status' body) w) i.
Proof.
  same_steps; cbn [snd]; reflexivity.
Qed.

Lemma comment_status_ignored w i body status status' :
  run_job (with_jira_comment (HttpResponse status body) w) i
  = run_job (with_jira_comment (HttpResponse status' body) w) i.
Proof.
  same_steps; cbn [snd]; reflexivity.
Qed.

(** A case of the analysis that the chosen world rules out. *)
Ltac impossible :=
  match goal with
  | H : _ = _ |- _ => cbn in H; discriminate H
  end.

(** C6 (as the workflow has it): the transition and comment calls do not
    look at the HTTP status of the answer.  The whole run is the same for
    every status of an answer with a given body; a Jira step does not fail
    when Jira answers its requests, and the body of the answer, not its
    status, is written to the log.  The In Progress step fails when [curl] gets no
    answer, and the pull-request step fails the run when the action
    fails. *)
Theorem C6_http_status_is_not_examined
    (w : World) (i : Inputs) (body : string) (status status' : nat) :
  let answered := with_jira_in_progress (HttpResponse status body) w in
  run_job answered i
  = run_job (with_jira_in_progress (HttpResponse status' body) w) i
  ∧ run_job (with_jira_in_review (HttpResponse status body) w) i
    = run_job (with_jira_in_review (HttpResponse status' body) w) i
  ∧ run_job (with_jira_comment (HttpResponse status body) w) i
    = run_job (with_jira_comment (HttpResponse status' body) w) i
  ∧ conclusion (run_job answered i) ≠ Failure JiraInProgress
  ∧ conclusion
      (run_job (with_jira_in_review (HttpResponse status body)
                  (with_jira_comment (HttpResponse status' body) w)) i)
    ≠ Failure JiraInReview
  ∧ (JiraInProgress ∈ executed (run_job answered i) →
     log (final (run_job answered i)) !! 0 = Some body)
  ∧ (∀ code message,
       JiraInProgress ∈ executed (run_job w i) →
       w_jira_in_progress w = TransportError code message →
       conclusion (run_job w i) = Failure JiraInProgress)
  ∧ (Cpr ∈ executed (run_job w i) →
     w_create_pull_request w = None →
     conclusion (run_job w i) = Failure Cpr).
Proof.
  intros answered. split; [apply in_progress_status_ignored|].
  split; [apply in_review_status_ignored|].
  split; [apply comment_status_ignored|].
  split; [|split; [|split; [|split]]].
  - subst answered. walk (with_jira_in_progress (HttpResponse status body) w);
      first [ done | impossible ].
  - walk (with_jira_in_review (HttpResponse status body)
            (with_jira_comment (HttpResponse status' body) w));
      first [ done | impossible ].
  - subst answered. walk (with_jira_in_progress (HttpResponse status body) w);
      intros Hin; try not_started; try impossible; observe;
      match goal with
      | H : w_jira_in_progress _ = HttpResponse _ _ |- _ =>
          cbn in H; injection H as <- <-
      end;
      reflexivity.
  - intros code message. walk w; intros Hin Hw; try not_started;
      first [ done | discriminate Hw ].
  - walk w; intros Hin Hpr; try not_started;
      first [ done | discriminate Hpr ].
Qed.

Lemma C6_http_status_is_not_examined_witness :
  conclusion (run_job erring_world ticket) ≠ Failure JiraInProgress
  ∧ log (final (run_job erring_world ticket)) !! 0
    = Some "Internal Server Error".
Proof.
  destruct (C6_http_status_is_not_examined nominal_world ticket
              "Internal Server Error" 500 204)
    as (_ & _ & _ & Hok & _ & Hlog & _).
  split; [exact Hok|]. apply Hlog. started.
Defined.

(** C6, as stated, fails: Jira answers 500 to the In Progress transition;
    the step is not failed, the run goes through all its steps and ends in
    success, and the log holds the bodies of the answers but no status. *)
Lemma C6_error_status_is_not_a_failure :
  is_2xx (w_jira_in_progress erring_world) = false
  ∧ conclusion (run_job erring_world ticket) = Success
  ∧ executed (run_job erring_world ticket)
    = [Checkout; SetupNode; InstallCodex; Vars; JiraInProgress; GitAuthor;
       CodexImplement; Cpr; JiraInReview]
  ∧ log (final (run_job erring_world ticket))
    = ["Internal Server Error"; ""; "{}"].
Proof. by vm_compute. Qed.

(** *** Transition identifiers *)




(** *** Sanitization *)

(** A text that embeds [DESC] embeds what [DESC] holds. *)
Ltac embeds_DESC H :=
  lazymatch goal with
  | |- Text.embeds _ (codex_prompt ?e) =>
      let HE := fresh in
      pose proof (codex_prompt_embeds_DESC e) as HE; rewrite H in HE; exact HE
  | |- Text.embeds _ (pr_body ?e) =>
      let HE := fresh in
      pose proof (pr_body_embeds_DESC e) as HE; rewrite H in HE; exact HE
  end.




(** *** Branch name *)




(** *** Commit and pull request *)




(** *** The raw description in the environment file *)

(** C10: the raw description is written to the environment file before
    the cleaned one.  For a description of two lines whose second line is
    [FOO=bar], the line after [RAW_DESC=...] is an entry of its own: the
    file has six lines, one more than the five intended variables, it
    defines [FOO], and [FOO] is in the environment of the later steps. *)
Theorem C10_raw_description_adds_environment_entries :
  ∃ i kvs,
    (LF ∈ Text.chars (issue_description i))
    ∧ vars_echoes i !! 2 = Some (echo ("RAW_DESC=" +:+ issue_description i))
    ∧ Text.lines (echo ("RAW_DESC=" +:+ issue_description i))
      = ["RAW_DESC=Crashes on empty input"; "FOO=bar"]
    ∧ length (Text.lines (vars_env_file i))
      = 5 + Text.count LF (issue_description i)
    ∧ parse_env_file (vars_env_file i) = Some kvs
    ∧ length kvs = 6
    ∧ (("FOO", "bar") ∈ kvs)
    ∧ ("FOO" ∉ intended_variables)
    ∧ env (final (run_job nominal_world i)) !! "FOO" = Some "bar"
    ∧ shell_words i = Some i.
Proof.
  exists two_line_ticket. eexists.
  split; [by apply (bool_decide_unpack _)|].
  split; [reflexivity|].
  split; [reflexivity|].
  split; [by apply vars_env_file_line_count; apply (bool_decide_unpack _)|].
  split; [by vm_compute|].
  split; [reflexivity|].
  split; [by apply (bool_decide_unpack _)|].
  split; [by apply (bool_decide_unpack _)|].
  split; by vm_compute.
Qed.

(** ** Further properties of the job *)

(** X2: the steps run in the order of the workflow file and the job stops
    at the first failure: the steps that were started are a prefix of the
    nine steps, all nine when the run succeeds, and a failed run failed at
    the last step it started. *)
Theorem X2_steps_run_in_order (w : World) (i : Inputs) :
  executed (run_job w i) `prefix_of` all_steps
  ∧ (conclusion (run_job w i) = Success → executed (run_job w i) = all_steps)
  ∧ (∀ s, conclusion (run_job w i) = Failure s →
          last (executed (run_job w i)) = Some s).
Proof.
  walk w; unfold all_steps.
  all: split; [| split; [intros H | intros s H]; by inversion H ].
  all: repeat apply prefix_cons; apply prefix_nil.
Qed.


(** ** The words that bash reads *)

(** A text without the characters that bash interprets is read as it
    is. *)
Lemma pasted_inert s : shell_inert s → pasted s = Some s.
Proof.
  unfold shell_inert, pasted. induction s as [|c s IH]; [done|].
  rewrite chars_cons. intros [Hc Hs]%Forall_cons.
  rewrite !not_elem_of_cons in Hc. destruct Hc as (Hq & Hd & Hb & Hs' & _).
  cbn [pasted_from].
  destruct (Ascii.eqb_spec c DQUOTE); [done|].
  destruct (Ascii.eqb_spec c DOLLAR); [done|].
  destruct (Ascii.eqb_spec c BACKQUOTE); [done|].
  destruct (Ascii.eqb_spec c BACKSLASH); [done|].
  cbn [orb]. by rewrite IH.
Qed.

Lemma shell_words_inert i : inert_inputs i → shell_words i = Some i.
Proof.
  intros (Hk & Ht & Hd). unfold shell_words.
  rewrite !pasted_inert by done. by destruct i.
Qed.

(** Without a backslash in the text, no quotation mark is part of the
    word: bash takes every one of them as its own. *)
Lemma pasted_from_no_quote quoted text word :
  BACKSLASH ∉ Text.chars text →
  pasted_from quoted text = Some word →
  DQUOTE ∉ Text.chars word.
Proof.
  revert quoted word. induction text as [|c text IH]; intros quoted word.
  - intros _. destruct quoted; [|done]. intros [= <-]. apply not_elem_of_nil.
  - rewrite chars_cons. intros [Hc Ht]%not_elem_of_cons. cbn [pasted_from].
    destruct (Ascii.eqb_spec c DQUOTE) as [->|Hq]; [by apply IH|].
    destruct quoted.
    + destruct (Ascii.eqb c DOLLAR || Ascii.eqb c BACKQUOTE); [done|].
      destruct (Ascii.eqb_spec c BACKSLASH) as [->|_]; [done|].
      destruct (pasted_from true text) as [word'|] eqn:Hw; [|done].
      intros [= <-]. rewrite chars_cons. apply not_elem_of_cons.
      split; [done | by eapply IH].
    + destruct (shell_plain c); [|done].
      destruct (pasted_from false text) as [word'|] eqn:Hw; [|done].
      intros [= <-]. rewrite chars_cons. apply not_elem_of_cons.
      split; [done | by eapply IH].
Qed.

(** The word is never longer than the text. *)
Lemma pasted_from_length quoted text word :
  pasted_from quoted text = Some word →
  String.length word ≤ String.length text.
Proof.
  assert (∀ n quoted text word,
            String.length text ≤ n →
            pasted_from quoted text = Some word →
            String.length word ≤ String.length text) as H;
    [|by apply (H (String.length text))].
  clear. induction n as [|n IH]; intros quoted text word Hle.
  - destruct text; [|simpl in Hle; lia]. destruct quoted; [|done].
    by intros [= <-].
  - destruct text as [|c text].
    { destruct quoted; [|done]. by intros [= <-]. }
    simpl in Hle. cbn [pasted_from].
    destruct (Ascii.eqb c DQUOTE).
    { intros H%IH; simpl; lia. }
    destruct quoted.
    + destruct (Ascii.eqb c DOLLAR || Ascii.eqb c BACKQUOTE); [done|].
      destruct (Ascii.eqb c BACKSLASH).
      * destruct text as [|c' text]; [done|]. simpl in Hle.
        destruct (_ || _).
        { destruct (pasted_from true text) as [word'|] eqn:Hw; [|done].
          intros [= <-]. apply IH in Hw; simpl; lia. }
        destruct (Ascii.eqb c' LF).
        { intros H%IH; simpl; lia. }
        destruct (pasted_from true text) as [word'|] eqn:Hw; [|done].
        intros [= <-]. apply IH in Hw; simpl; lia.
      * destruct (pasted_from true text) as [word'|] eqn:Hw; [|done].
        intros [= <-]. apply IH in Hw; simpl; lia.
    + destruct (shell_plain c); [|done].
      destruct (pasted_from false text) as [word'|] eqn:Hw; [|done].
      intros [= <-]. apply IH in Hw; simpl; lia.
Qed.

(** ** The cleaning of the description, as a function of the text *)

Lemma length_append (s t : string) :
  String.length (s +:+ t) = String.length s + String.length t.
Proof. induction s as [|c s IH]; [done|]. rewrite app_cons. simpl. by rewrite IH. Qed.

Lemma app_inv_tail_map f (s a : string) :
  Text.map f s +:+ a = s +:+ a → Text.map f s = s.
Proof.
  induction s as [|c s IH]; [done|]. cbn [Text.map]. rewrite !app_cons.
  intros H. injection H as Hc Hs. by rewrite Hc, IH.
Qed.

Lemma map_fixed f (s : string) :
  Text.map f s = s ↔ ∀ c, c ∈ Text.chars s → f c = c.
Proof.
  induction s as [|c s IH].
  - split; [|done]. intros _ c Hc. by apply elem_of_nil in Hc.
  - cbn [Text.map]. rewrite chars_cons. split.
    + intros H. injection H as Hc Hs. intros a [->|Ha]%elem_of_cons; [done|].
      by apply IH.
    + intros H. rewrite (H c) by left. f_equal. apply IH.
      intros a Ha. apply H. by right.
Qed.

Lemma neutralize_fixed c : neutralize c = c ↔ c ≠ LF ∧ c ≠ DQUOTE.
Proof.
  unfold neutralize.
  destruct (Ascii.eqb_spec c LF) as [->|Hlf].
  - split; [discriminate|]. by intros [? _].
  - destruct (Ascii.eqb_spec c DQUOTE) as [->|Hq].
    + split; [discriminate|]. by intros [_ ?].
    + done.
Qed.

(** X5: the cleaned description is at most one character longer than
    the description.  When bash reads the pasted description as a word
    that [echo] prints, the cleaned text has exactly one character more
    than the word (the line break that [echo] adds becomes a final
    space), and it is the word followed by a space if and only if the
    word has neither a quotation mark nor a line break.  A word that
    [echo] takes as an option ([-n], [-e], ...) leaves an empty text or
    a single space. *)
Theorem X5_cleaning_keeps_the_length (d word : string) :
  pasted d = Some word →
  String.length (DESC_CLEANED word) ≤ S (String.length d)
  ∧ (is_echo_option word = false →
     String.length (DESC_CLEANED word) = S (String.length word)
     ∧ (DESC_CLEANED word = word +:+ " "
        ↔ (DQUOTE ∉ Text.chars word) ∧ (LF ∉ Text.chars word)))
  ∧ (is_echo_option word = true →
     DESC_CLEANED word = "" ∨ DESC_CLEANED word = " ").
Proof.
  intros Hlen%pasted_from_length.
  assert (is_echo_option word = false →
          String.length (DESC_CLEANED word) = S (String.length word)) as Hword.
  { intros Hw. rewrite DESC_CLEANED_chars, length_append, length_map by done.
    simpl. lia. }
  assert (is_echo_option word = true →
          DESC_CLEANED word = "" ∨ DESC_CLEANED word = " ") as Hoption.
  { intros Hw. rewrite DESC_CLEANED_option by done.
    destruct (existsb _ _); [by left | by right]. }
  split; [|split; [|done]].
  - destruct (is_echo_option word) eqn:Hw.
    + destruct (Hoption eq_refl) as [-> | ->]; simpl; lia.
    + rewrite Hword by done. lia.
  - intros Hw. split; [by apply Hword|].
    rewrite DESC_CLEANED_chars by done. split.
    + intros H%app_inv_tail_map. rewrite map_fixed in H.
      split; intros Hin; apply H, neutralize_fixed in Hin; tauto.
    + intros [Hq Hlf]. f_equal. apply map_fixed. intros c Hc.
      apply neutralize_fixed. split; intros ->; tauto.
Qed.

Lemma X5_cleaning_keeps_the_length_witness :
  String.length (DESC_CLEANED "-n") ≤ 3
  ∧ (DESC_CLEANED "-n" = "" ∨ DESC_CLEANED "-n" = " ").
Proof.
  destruct (X5_cleaning_keeps_the_length "-n" "-n") as (Hlen & _ & Hoption).
  - reflexivity.
  - split; [exact Hlen | by apply Hoption].
Defined.

(** X6: bash takes every quotation mark of the pasted description as its
    own unless a backslash stands before it: when the description has
    no backslash and bash reads it as text, the word has no quotation
    mark, the [sed] filter of the script changes nothing, and the cleaned
    text is what the pipeline gives without that filter. *)
Theorem X6_quotes_do_not_reach_sed (d word : string) :
  pasted d = Some word →
  BACKSLASH ∉ Text.chars d →
  (DQUOTE ∉ Text.chars word)
  ∧ sed_quote_to_apostrophe (tr_newline_space (echo_builtin word))
    = tr_newline_space (echo_builtin word)
  ∧ DESC_CLEANED word
    = command_substitution (tr_newline_space (echo_builtin word)).
Proof.
  intros Hword Hd.
  pose proof (pasted_from_no_quote true d word Hd Hword) as Hq.
  assert (sed_quote_to_apostrophe (tr_newline_space (echo_builtin word))
          = tr_newline_space (echo_builtin word)) as Hsed.
  { unfold sed_quote_to_apostrophe. apply map_fixed. intros c Hc.
    destruct (Ascii.eqb_spec c DQUOTE) as [->|]; [|done].
    exfalso. unfold tr_newline_space in Hc. rewrite chars_map in Hc.
    apply list_elem_of_fmap in Hc as (a & Ha & Hin).
    assert (a = DQUOTE) as ->.
    { destruct (Ascii.eqb_spec a LF); [discriminate Ha | done]. }
    unfold echo_builtin, echo in Hin.
    destruct (is_echo_option word).
    - destruct (existsb _ _); revert Hin; by apply (bool_decide_unpack _).
    - rewrite chars_app in Hin. apply elem_of_app in Hin as [Hin|Hin]; [done|].
      revert Hin. by apply (bool_decide_unpack _). }
  split; [done|]. split; [done|].
  unfold DESC_CLEANED. by rewrite Hsed.
Qed.

Lemma X6_quotes_do_not_reach_sed_witness :
  (DQUOTE ∉ Text.chars (issue_description quoted_words))
  ∧ DESC_CLEANED (issue_description quoted_words)
    = command_substitution
        (tr_newline_space (echo_builtin (issue_description quoted_words))).
Proof.
  destruct (X6_quotes_do_not_reach_sed (issue_description quoted_ticket)
              (issue_description quoted_words)) as (Hq & _ & Hclean).
  - reflexivity.
  - by apply (bool_decide_unpack _).
  - split; [exact Hq | exact Hclean].
Defined.

(** ** The environment file, line by line *)

(** X1: when bash reads the pasted inputs as text and the ticket id and
    the title are of one line each, the script ends with status 0 and
    the environment file has five lines and one more for every line
    break of the description. *)
Theorem X1_environment_file_line_count (w : World) (i ws : Inputs) :
  shell_words i = Some ws →
  single_line (issue_key ws) → single_line (issue_summary ws) →
  ∃ file,
    vars_written w i = Some file
    ∧ length (Text.lines file) = 5 + Text.count LF (issue_description ws).
Proof.
  intros Hwords Hk Ht. exists (vars_env_file ws).
  split; [unfold vars_written; by rewrite Hwords|].
  by apply vars_env_file_line_count.
Qed.

Lemma X1_environment_file_line_count_witness :
  ∃ file,
    vars_written nominal_world two_line_ticket = Some file
    ∧ length (Text.lines file) = 6.
Proof.
  apply (X1_environment_file_line_count nominal_world two_line_ticket
           two_line_ticket).
  - reflexivity.
  - by apply (bool_decide_unpack _).
  - by apply (bool_decide_unpack _).
Defined.

(** The entries of the file for words of one line each. *)
Lemma parse_one_line_inputs i :
  one_line_inputs i →
  parse_env_file (vars_env_file i) =
    Some [ ("ISSUE_KEY", issue_key i); ("TITLE", issue_summary i);
           ("RAW_DESC", issue_description i);
           ("DESC", DESC_CLEANED (issue_description i));
           ("BRANCH", BRANCH i) ].
Proof.
  intros (Hk & Ht & Hd). rewrite parse_vars_env_file by done.
  unfold continuation. rewrite lines_echo_single by done. cbn [hd tail app].
  read_entry "DESC" (DESC_CLEANED (issue_description i)).
  read_entry "BRANCH" (BRANCH i).
  reflexivity.
Qed.

(** X7: inputs of one line each that hold none of the characters that
    bash interprets between double quotes (quotation mark, dollar sign,
    backquote, backslash) are exported as they are, [=] and [<<]
    included: step [vars] succeeds, the five variables hold the ticket
    id, the title, the description, the cleaned description and the
    branch name, and no other variable is set or changed. *)
Theorem X7_inert_inputs_are_exported_unchanged
    (w : World) (i : Inputs) (j : Job) :
  inert_inputs i →
  one_line_inputs i →
  let j' := (step_vars w i j).2 in
  (step_vars w i j).1 = true
  ∧ env j' !! "ISSUE_KEY" = Some (issue_key i)
  ∧ env j' !! "TITLE" = Some (issue_summary i)
  ∧ env j' !! "RAW_DESC" = Some (issue_description i)
  ∧ env j' !! "DESC" = Some (DESC_CLEANED (issue_description i))
  ∧ env j' !! "BRANCH" = Some ("codex/" +:+ issue_key i)
  ∧ (∀ name, name ∉ intended_variables → env j' !! name = env j !! name).
Proof.
  intros Hinert Hone. cbv zeta.
  rewrite step_vars_eq, (exported_words w i i (shell_words_inert i Hinert)).
  rewrite (parse_one_line_inputs i Hone).
  cbn [fst snd env trace with_env]. unfold set_env. cbn [foldl fst snd].
  split; [done|].
  split; [by rewrite !lookup_insert_ne, lookup_insert_eq by done|].
  split; [by rewrite !lookup_insert_ne, lookup_insert_eq by done|].
  split; [by rewrite !lookup_insert_ne, lookup_insert_eq by done|].
  split; [by rewrite !lookup_insert_ne, lookup_insert_eq by done|].
  split; [by rewrite lookup_insert_eq|].
  intros name Hname. unfold intended_variables in Hname.
  rewrite !not_elem_of_cons in Hname.
  destruct Hname as (? & ? & ? & ? & ? & _).
  by rewrite !lookup_insert_ne by done.
Qed.

Lemma X7_inert_inputs_are_exported_unchanged_witness :
  (step_vars nominal_world awkward_ticket initial_job).1 = true
  ∧ env (step_vars nominal_world awkward_ticket initial_job).2 !! "TITLE"
    = Some "Retry when a=b<<c"
  ∧ env (step_vars nominal_world awkward_ticket initial_job).2 !! "RAW_DESC"
    = Some "x<<EOF and y=z".
Proof.
  destruct (X7_inert_inputs_are_exported_unchanged nominal_world
              awkward_ticket initial_job) as (Hok & _ & Ht & Hd & _).
  - repeat split; by apply (bool_decide_unpack _).
  - repeat split; by apply (bool_decide_unpack _).
  - split; [exact Hok|]. split; [exact Ht | exact Hd].
Defined.

(** X8: when bash reads the pasted inputs as text, a line of the
    description that follows complete entries, is not empty and has
    neither [=] nor [<] is no entry of the environment file: step
    [vars] fails, and the job ends before any request to Jira and before
    the agent is called. *)
Theorem X8_prose_line_fails_the_job (w : World) (i ws : Inputs)
    (before : list string) (entries : list (string * string))
    (l : string) (rest : list string) :
  shell_words i = Some ws →
  single_line (issue_key ws) → single_line (issue_summary ws) →
  continuation (issue_description ws) = before ++ l :: rest →
  parse_env_lines TopLevel before = Some entries →
  l ≠ "" → "="%char ∉ Text.chars l → "<"%char ∉ Text.chars l →
  Vars ∈ executed (run_job w i) →
  conclusion (run_job w i) = Failure Vars
  ∧ trace (final (run_job w i)) = [checkout_call; setup_node_call; pnpm_call].
Proof.
  intros Hwords Hk Ht Hcont Hbefore Hl Heq Hlt.
  assert (exported w i = None) as Hnone.
  { rewrite (exported_words w i ws Hwords).
    rewrite parse_vars_env_file, Hcont by done.
    rewrite <- (assoc_L (++)).
    rewrite (parse_env_lines_app _ _ _ _ Hbefore).
    cbn [app parse_env_lines]. rewrite classify_invalid by done.
    by destruct (String.eqb_spec l ""). }
  walk w; intros Hin; try not_started.
  all: try congruence.
  by observe.
Qed.

Lemma X8_prose_line_fails_the_job_witness :
  conclusion (run_job nominal_world prose_ticket) = Failure Vars
  ∧ trace (final (run_job nominal_world prose_ticket))
    = [checkout_call; setup_node_call; pnpm_call].
Proof.
  apply (X8_prose_line_fails_the_job nominal_world prose_ticket prose_ticket
           [] [] "needs a guard" []).
  - reflexivity.
  - by apply (bool_decide_unpack _).
  - by apply (bool_decide_unpack _).
  - reflexivity.
  - reflexivity.
  - discriminate.
  - by apply (bool_decide_unpack _).
  - by apply (bool_decide_unpack _).
  - by apply (bool_decide_unpack _).
Defined.

(** The calls of a trace, written with the inputs instead of the
    variables that hold them. *)
Ltac by_inputs :=
  unfold transition_call, comment_call, pull_request_call, cpr_inputs,
    pr_title, pr_body, commit_message, codex_prompt;
  rewrite ?transitions_url_jira_env, ?comment_url_jira_env,
    ?jira_user_jira_env, ?step_output_set_output.

(** X4: when bash reads the pasted inputs as text, a line of the
    description that has the form [TITLE=...] replaces the title
    exported before it: in a run that reaches the pull-request step, the
    commit message and the title of the pull request carry the text of
    that line instead of the title of the ticket. *)
Theorem X4_description_line_replaces_the_title (w : World) (i : Inputs)
    (key title first title' : string) :
  shell_words i
  = Some {| issue_key := key; issue_summary := title;
            issue_description := first +:+ String LF ("TITLE=" +:+ title') |} →
  single_line key → single_line title →
  single_line first → single_line title' →
  Cpr ∈ executed (run_job w i) →
  calls "git" (trace (final (run_job w i)))
  = [ git_config_email_call; git_config_name_call; git_add_call;
      git_commit_call ("feat(" +:+ key +:+ "): " +:+ title') ]
  ∧ (cpr_inputs w (env (final (run_job w i)))) !! 3
    = Some ("title", title' +:+ " (" +:+ key +:+ ")").
Proof.
  intros Hwords Hk Ht Hf Ht'.
  assert (∃ e, exported w i = Some e
               ∧ getenv (set_env e ∅) "ISSUE_KEY" = key
               ∧ getenv (set_env e ∅) "TITLE" = title')
    as (e & Hvars & Hkey & Htitle).
  { eexists. split.
    - rewrite (exported_words w i _ Hwords).
      rewrite parse_vars_env_file by done. unfold continuation.
      cbn [issue_description issue_summary issue_key].
      rewrite lines_echo_break.
      rewrite (lines_echo_single first) by done.
      rewrite (lines_echo_single ("TITLE=" +:+ title')) by one_line.
      cbn [hd tail app].
      read_entry "TITLE" title'.
      read_entry "DESC" (DESC_CLEANED (first +:+ String LF ("TITLE=" +:+ title'))).
      match goal with
      | |- context [parse_env_lines TopLevel [?p +:+ ?b]] =>
          change (parse_env_lines TopLevel [p +:+ b]) with (Some [("BRANCH", b)])
      end.
      reflexivity.
    - unfold set_env. cbn [foldl fst snd].
      split; rewrite !getenv_insert_ne by done; apply getenv_insert_eq. }
  walk w; intros Hin; try not_started.
  all: entries Hvars.
  all: observe.
  all: unfold cpr_inputs, pr_title, commit_message.
  all: rewrite ?getenv_insert_ne by done.
  all: rewrite Hkey, Htitle.
  all: by split.
Qed.

Lemma X4_description_line_replaces_the_title_witness :
  calls "git" (trace (final (run_job nominal_world retitling_ticket)))
  = [ git_config_email_call; git_config_name_call; git_add_call;
      git_commit_call "feat(PROJ-123): Urgent" ]
  ∧ (cpr_inputs nominal_world
       (env (final (run_job nominal_world retitling_ticket)))) !! 3
    = Some ("title", "Urgent (PROJ-123)").
Proof.
  apply (X4_description_line_replaces_the_title nominal_world
           retitling_ticket
           "PROJ-123" "Fix null check" "Crashes on empty input" "Urgent").
  - reflexivity.
  - by apply (bool_decide_unpack _).
  - by apply (bool_decide_unpack _).
  - by apply (bool_decide_unpack _).
  - by apply (bool_decide_unpack _).
  - by apply (bool_decide_unpack _).
Defined.



(** ** The calls of a run *)



